(** * convert-img: the batch conversion pipeline of [script.js]

    A shallow embedding of the browser script: the input normalizer
    ([isZipFile], [handleZipFile], [handleRegularFile], [setFromFormatOption]),
    the conversion loop of the convert button, [changeExtension], and the
    collision-safe naming of the bulk download ([getUniqueFilename]).

    Strings are sequences of characters ([string]); the script only ever
    compares against and splits on ASCII text, and lower-casing outside
    [A-Z] never produces one of the ASCII letters the script tests for, so
    [toLowerCase] is modelled on [A-Z] alone.  The mutable globals
    ([originalFiles], [errorResults], [convertedResults]) and the page
    elements the script writes are threaded as an explicit [Page] record.
    The browser's own services (archive reader, image decoder, canvas
    encoder, object URLs) are parameters of a section. *)

From Stdlib Require Import Ascii.
From stdpp Require Import base decidable option list strings gmap pretty.


(** ** JavaScript string primitives used by the script *)

Module JsString.

(** [s.split(sep)] for a one-character separator: never empty,
    [''.split('.')] is [['']]. *)
Fixpoint split (sep : ascii) (s : string) : list string :=
  match s with
  | EmptyString => [EmptyString]
  | String c s' =>
      if decide (c = sep) then EmptyString :: split sep s'
      else match split sep s' with
           | [] => [String c EmptyString]
           | p :: ps => String c p :: ps
           end
  end.

(** [parts.join(sep)]; the empty array joins to [''] . *)
Fixpoint join (sep : string) (parts : list string) : string :=
  match parts with
  | [] => EmptyString
  | p :: ps =>
      match ps with
      | [] => p
      | _ :: _ => p +:+ sep +:+ join sep ps
      end
  end.

(** [parts.pop()]: the removed last element ([undefined] on an empty
    array) and the array that is left. *)
Fixpoint pop (parts : list string) : option string * list string :=
  match parts with
  | [] => (None, [])
  | p :: ps =>
      match ps with
      | [] => (Some p, [])
      | _ :: _ => let '(l, rest) := pop ps in (l, p :: rest)
      end
  end.

Definition toLowerChar (c : ascii) : ascii :=
  let n := Ascii.nat_of_ascii c in
  if (65 <=? n)%nat && (n <=? 90)%nat then Ascii.ascii_of_nat (n + 32) else c.

Fixpoint toLowerCase (s : string) : string :=
  match s with
  | EmptyString => EmptyString
  | String c s' => String (toLowerChar c) (toLowerCase s')
  end.

(** [s.endsWith(t)]: some suffix of [s] is [t]. *)
Fixpoint endsWith (s t : string) : bool :=
  bool_decide (s = t) ||
  match s with
  | EmptyString => false
  | String _ s' => endsWith s' t
  end.

(** [s] starts with [t]. *)
Fixpoint startsWith (s t : string) : bool :=
  match t, s with
  | EmptyString, _ => true
  | String _ _, EmptyString => false
  | String b t', String a s' => bool_decide (a = b) && startsWith s' t'
  end.

(** [t] occurs somewhere in [s]: what an unanchored regular expression
    for the literal [t] tests. *)
Fixpoint includes (s t : string) : bool :=
  startsWith s t ||
  match s with
  | EmptyString => false
  | String _ s' => includes s' t
  end.

(** How a template literal prints a value that may be [undefined]. *)
Definition show (o : option string) : string := default "undefined" o.

End JsString.

Import JsString.

(** ** File names *)

(** [getExtension], lines 128-132. *)
Definition getExtension (filename : string) : string :=
  let parts := split "." filename in
  if (length parts <=? 1)%nat then "" else show (last parts).

(** [changeExtension], lines 243-250: the last segment is overwritten in
    place, then the segments are joined again. *)
Definition changeExtension (filename newExt : string) : string :=
  let parts := split "." filename in
  if (length parts <=? 1)%nat then filename +:+ "." +:+ newExt
  else join "." (<[length parts - 1 := newExt]> parts).

(** ** Collision-safe names for the bulk download *)

(** The candidate of the [do ... while] loop for a given counter. *)
Definition candidate (baseName ext : string) (counter : nat) : string :=
  baseName +:+ "(" +:+ pretty counter +:+ ")." +:+ ext.

(** The [do ... while (usedNames.has(newName))] loop of lines 294-299, with
    an explicit bound on the number of iterations; [None] when the bound
    is reached before an unused name is found. *)
Fixpoint uniqueLoop (fuel : nat) (baseName ext : string)
    (usedNames : gset string) (counter : nat) : option string :=
  match fuel with
  | O => None
  | S fuel' =>
      let newName := candidate baseName ext counter in
      if decide (newName ∈ usedNames)
      then uniqueLoop fuel' baseName ext usedNames (S counter)
      else Some newName
  end.

(** [joined || 'file'], line 292: the empty string is falsy. *)
Definition baseOrFile (joined : string) : string :=
  if decide (joined = "") then "file" else joined.

(** [getUniqueFilename], lines 285-302.  The loop is run for at most
    [size usedNames + 1] iterations, which [getUniqueFilename_total] shows
    to be enough on every input. *)
Definition getUniqueFilename (filename : string) (usedNames : gset string)
    : option string :=
  if decide (filename ∈ usedNames) then
    let '(ext, parts) := pop (split "." filename) in
    let baseName := baseOrFile (join "." parts) in
    uniqueLoop (S (size usedNames)) baseName (show ext) usedNames 1
  else Some filename.

(** ** Data model *)

Record Blob := mkBlob { blob_data : list Byte.byte; blob_type : string }.

(** An input [File]: a blob with a name; [file.type] is the declared
    content type (the empty string when the browser knows none). *)
Record File := mkFile { name : string; type : string; content : list Byte.byte }.

Definition fileBlob (file : File) : Blob :=
  {| blob_data := content file; blob_type := type file |}.

(** An element of [originalFiles]. *)
Record SourceItem := mkItem { blob : Blob; originalName : string; format : string }.

(** An element of [convertedResults]. *)
Record Result := mkResult { result_blob : Blob; filename : string }.

(** An entry of an opened archive, in [Object.keys(zip.files)] order:
    [entryData] is what [zipEntry.async('arraybuffer')] resolves to, [None]
    when that promise rejects. *)
Record ZipEntry := mkEntry { entryName : string; dir : bool; entryData : option (list Byte.byte) }.

(** The keys of [imageMimeMap], which are the values the target selector
    offers. *)
Inductive FormatKey := png | jpeg | webp.

Record MimeEntry := mkMime { mime : string; ext : string }.

(** [imageMimeMap], lines 8-12. *)
Definition imageMimeMap (key : FormatKey) : MimeEntry :=
  match key with
  | png => {| mime := "image/png"; ext := "png" |}
  | jpeg => {| mime := "image/jpeg"; ext := "jpg" |}
  | webp => {| mime := "image/webp"; ext := "webp" |}
  end.

(** [supportedExtensions], line 15. *)
Definition supportedExtensions : list string := ["png"; "jpg"; "jpeg"; "webp"].

(** The two properties of the source-format [select] the script writes. *)
Record Select := mkSelect { value : string; disabled : bool }.

(** A child of [outputContainer]. *)
Inductive Node :=
  | ImageResult (url filename : string)
  | ErrorResult (msg : string).

(** The script's globals and the page elements it writes. *)
Record Page := mkPage {
  originalFiles : list SourceItem;
  errorResults : list string;
  convertedResults : list Result;
  fromFormat : Select;
  toFormat : FormatKey;
  convertBtn_disabled : bool;
  downloadAllBtn_disabled : bool;
  outputContainer : list Node
}.

Definition set_originalFiles (v : list SourceItem) (p : Page) : Page :=
  mkPage v (errorResults p) (convertedResults p) (fromFormat p) (toFormat p)
    (convertBtn_disabled p) (downloadAllBtn_disabled p) (outputContainer p).
Definition set_errorResults (v : list string) (p : Page) : Page :=
  mkPage (originalFiles p) v (convertedResults p) (fromFormat p) (toFormat p)
    (convertBtn_disabled p) (downloadAllBtn_disabled p) (outputContainer p).
Definition set_convertedResults (v : list Result) (p : Page) : Page :=
  mkPage (originalFiles p) (errorResults p) v (fromFormat p) (toFormat p)
    (convertBtn_disabled p) (downloadAllBtn_disabled p) (outputContainer p).
Definition set_fromFormat (v : Select) (p : Page) : Page :=
  mkPage (originalFiles p) (errorResults p) (convertedResults p) v (toFormat p)
    (convertBtn_disabled p) (downloadAllBtn_disabled p) (outputContainer p).
Definition set_convertBtn_disabled (v : bool) (p : Page) : Page :=
  mkPage (originalFiles p) (errorResults p) (convertedResults p) (fromFormat p)
    (toFormat p) v (downloadAllBtn_disabled p) (outputContainer p).
Definition set_downloadAllBtn_disabled (v : bool) (p : Page) : Page :=
  mkPage (originalFiles p) (errorResults p) (convertedResults p) (fromFormat p)
    (toFormat p) (convertBtn_disabled p) v (outputContainer p).
Definition set_outputContainer (v : list Node) (p : Page) : Page :=
  mkPage (originalFiles p) (errorResults p) (convertedResults p) (fromFormat p)
    (toFormat p) (convertBtn_disabled p) (downloadAllBtn_disabled p) v.

(** [originalFiles.push(item)], [errorResults.push(msg)],
    [convertedResults.push(r)]. *)
Definition pushOriginal (item : SourceItem) (p : Page) : Page :=
  set_originalFiles (originalFiles p ++ [item]) p.
Definition pushError (msg : string) (p : Page) : Page :=
  set_errorResults (errorResults p ++ [msg]) p.
Definition pushConverted (r : Result) (p : Page) : Page :=
  set_convertedResults (convertedResults p ++ [r]) p.

(** [appendResult], lines 218-234, and [appendErrorResult], lines 236-241. *)
Definition appendResult (url filename : string) (p : Page) : Page :=
  set_outputContainer (outputContainer p ++ [ImageResult url filename]) p.
Definition appendErrorResult (msg : string) (p : Page) : Page :=
  set_outputContainer (outputContainer p ++ [ErrorResult msg]) p.

(** [clearResults], lines 59-64. *)
Definition clearResults (p : Page) : Page :=
  set_originalFiles [] (set_errorResults [] (set_convertedResults []
    (set_outputContainer [] p))).

(** ** Input normalizer *)

(** [isZipFile], lines 66-68. *)
Definition isZipFile (file : File) : bool :=
  endsWith (toLowerCase (name file)) ".zip" || bool_decide (type file = "application/zip").

(** [isImageFileSupported], lines 124-126: the regular expression
    [/image\/(png|jpeg|webp)/] is not anchored, so it matches when one of
    the three literals occurs anywhere in the declared type. *)
Definition isImageFileSupported (file : File) : bool :=
  includes (type file) "image/png" || includes (type file) "image/jpeg"
  || includes (type file) "image/webp".

(** [guessMimeTypeFromExt], lines 134-142. *)
Definition guessMimeTypeFromExt (ext : string) : string :=
  if decide (ext = "png") then "image/png"
  else if decide (ext = "jpg") then "image/jpeg"
  else if decide (ext = "jpeg") then "image/jpeg"
  else if decide (ext = "webp") then "image/webp"
  else "".

(** [handleRegularFile], lines 104-122. *)
Definition handleRegularFile (file : File) (p : Page) : Page :=
  let ext := toLowerCase (getExtension (name file)) in
  if isImageFileSupported file then
    let format :=
      if decide (type file = "image/png") then Some "png"
      else if decide (type file = "image/jpeg") then Some "jpeg"
      else if decide (type file = "image/webp") then Some "webp"
      else None in
    match format with
    | None => pushError (name file +:+ " は非対応の画像形式です。") p
    | Some format =>
        pushOriginal {| blob := fileBlob file; originalName := name file; format := format |} p
    end
  else if decide (ext = "zip") then
    pushError (name file +:+ " のZIP処理中に問題がありました。") p
  else
    pushError (name file +:+ " は非対応の拡張子です。") p.

(** The [for] loop of [handleZipFile], lines 76-98.  The boolean is [true]
    when the body threw (an entry whose data cannot be read), which leaves
    the loop with the pushes made so far. *)
Fixpoint zipEntriesLoop (entries : list ZipEntry) (p : Page) : Page * bool :=
  match entries with
  | [] => (p, false)
  | zipEntry :: rest =>
      if dir zipEntry then zipEntriesLoop rest p
      else
        let entryName := entryName zipEntry in
        let ext := toLowerCase (getExtension entryName) in
        if negb (bool_decide (ext ∈ supportedExtensions)) then
          zipEntriesLoop rest (pushError (entryName +:+ " は非対応の拡張子です。") p)
        else
          let mimeType := guessMimeTypeFromExt ext in
          if decide (mimeType = "") then
            zipEntriesLoop rest (pushError (entryName +:+ " は処理できません。") p)
          else
            match entryData zipEntry with
            | None => (p, true)
            | Some fileData =>
                let blob := {| blob_data := fileData; blob_type := mimeType |} in
                let format :=
                  if decide (ext = "jpg") then "jpeg"
                  else if decide (ext = "jpeg") then "jpeg" else ext in
                zipEntriesLoop rest
                  (pushOriginal {| blob := blob; originalName := entryName; format := format |} p)
            end
  end.

(** Insertion into a JavaScript [Set], kept in insertion order. *)
Definition setAdd (s : list string) (x : string) : list string :=
  if decide (x ∈ s) then s else s ++ [x].

(** [new Set(array)]. *)
Definition newSet (xs : list string) : list string := fold_left setAdd xs [].

(** [setFromFormatOption], lines 144-160.  The value assigned to the
    [select] is recorded as assigned. *)
Definition setFromFormatOption (p : Page) : Page :=
  if (length (originalFiles p) =? 0)%nat then
    set_fromFormat {| value := "mixed"; disabled := true |} p
  else
    let formats := newSet (format <$> originalFiles p) in
    if (length formats =? 1)%nat then
      let singleFormat := show (head formats) in
      set_fromFormat {| value := singleFormat; disabled := true |} p
    else
      set_fromFormat {| value := "mixed"; disabled := true |} p.

(** A decoded image and a canvas.  A canvas has the size it was given and
    the bitmap drawn on it at the origin (none on a fresh canvas). *)
Record Canvas (Image : Type) := mkCanvas {
  canvas_width : N;
  canvas_height : N;
  canvas_bitmap : option Image
}.
Arguments mkCanvas {Image} _ _ _.
Arguments canvas_width {Image} _.
Arguments canvas_height {Image} _.
Arguments canvas_bitmap {Image} _.

(** [ctx.drawImage(img, 0, 0)]: the size of the canvas is not changed. *)
Definition drawImage {Image : Type} (canvas : Canvas Image) (img : Image) : Canvas Image :=
  {| canvas_width := canvas_width canvas;
     canvas_height := canvas_height canvas;
     canvas_bitmap := Some img |}.

(** ** The handlers, over the services of the browser *)

Section Browser.

(** [JSZip.loadAsync] on the bytes of a file, followed by the enumeration
    of [zip.files]; [None] when the archive cannot be opened. *)
Variable loadAsync : list Byte.byte -> option (list ZipEntry).

(** [FileReader.readAsDataURL]; [None] when [onerror] fires. *)
Variable DataURL : Type.
Variable readAsDataURL : Blob -> option DataURL.

(** Loading an [Image] from a data URL; [None] when [onerror] fires. *)
Variable Image : Type.
Variable width height : Image -> N.
Variable loadImage : DataURL -> option Image.

(** [canvas.toBlob(callback, mime)]: the blob handed to the callback,
    [None] for [null]. *)
Variable toBlob : Canvas Image -> string -> option Blob.

Variable createObjectURL : Blob -> string.

(** [handleZipFile], lines 70-102. *)
Definition handleZipFile (file : File) (p : Page) : Page :=
  match loadAsync (content file) with
  | None => pushError (name file +:+ " の解凍に失敗しました。") p
  | Some entries =>
      let '(p', threw) := zipEntriesLoop entries p in
      if threw then pushError (name file +:+ " の解凍に失敗しました。") p' else p'
  end.

(** The dispatch of lines 36-42 for one selected file. *)
Definition handleFile (p : Page) (file : File) : Page :=
  if isZipFile file then handleZipFile file p else handleRegularFile file p.

(** The [change] handler of the file input, lines 22-57. *)
Definition onInputChange (files : list File) (p : Page) : Page :=
  let p := clearResults p in
  if (length files =? 0)%nat then
    set_downloadAllBtn_disabled true (set_convertBtn_disabled true p)
  else
    let p := set_convertedResults [] (set_errorResults [] (set_originalFiles [] p)) in
    let p := fold_left handleFile files p in
    let p := setFromFormatOption p in
    let p := fold_left (fun p err => appendErrorResult err p) (errorResults p) p in
    if (length (originalFiles p) =? 0)%nat then
      set_downloadAllBtn_disabled true (set_convertBtn_disabled true p)
    else
      set_downloadAllBtn_disabled true (set_convertBtn_disabled false p).

(** [convertImageFile], lines 190-216: the value the promise resolves
    to, [None] for [null]. *)
Definition convertImageFile (fileBlob : Blob) (outputMime : string) : option Blob :=
  match readAsDataURL fileBlob with
  | None => None
  | Some url =>
      match loadImage url with
      | None => None
      | Some img =>
          let canvas := mkCanvas (width img) (height img) None in
          let canvas := drawImage canvas img in
          toBlob canvas outputMime
      end
  end.

(** The body of the loop of the convert button, lines 173-182. *)
Definition convertStep (toMime toExt : string) (p : Page) (fileObj : SourceItem) : Page :=
  match convertImageFile (blob fileObj) toMime with
  | Some resultBlob =>
      let newFileName := changeExtension (originalName fileObj) toExt in
      let outputURL := createObjectURL resultBlob in
      pushConverted {| result_blob := resultBlob; filename := newFileName |}
        (appendResult outputURL newFileName p)
  | None =>
      appendErrorResult (originalName fileObj +:+ " の変換に失敗しました。") p
  end.

(** The [click] handler of the convert button, lines 162-188. *)
Definition onConvertClick (p : Page) : Page :=
  if (length (originalFiles p) =? 0)%nat then p
  else
    let p := set_convertedResults [] (set_outputContainer [] p) in
    let toKey := toFormat p in
    let toMime := mime (imageMimeMap toKey) in
    let toExt := ext (imageMimeMap toKey) in
    let p := fold_left (convertStep toMime toExt) (originalFiles p) p in
    if (0 <? length (convertedResults p))%nat
    then set_downloadAllBtn_disabled false p else p.

End Browser.

Arguments convertImageFile {DataURL} readAsDataURL {Image} width height loadImage toBlob
  fileBlob outputMime.
Arguments convertStep {DataURL} readAsDataURL {Image} width height loadImage toBlob
  createObjectURL toMime toExt p fileObj.
Arguments onConvertClick {DataURL} readAsDataURL {Image} width height loadImage toBlob
  createObjectURL p.

(** A node without the object URL it carries: what is shown apart from
    the URL, which the browser mints anew on every call. *)
Definition withoutUrl (n : Node) : Node :=
  match n with
  | ImageResult _ filename => ImageResult "" filename
  | ErrorResult msg => ErrorResult msg
  end.

(** The messages of the error nodes of the output container, in order. *)
Definition errorMessages (nodes : list Node) : list string :=
  omap (fun n => match n with
                 | ErrorResult msg => Some msg
                 | ImageResult _ _ => None
                 end) nodes.

(** ** Bulk download *)

(** The files written into the archive under construction, one per name,
    in the order of the [zip.file] calls that first wrote them;
    [zip.file(name, data)] overwrites the file of the same name.  This is
    not the list of all entries of the archive: the folder entries the
    library derives from the path prefix of a name, and the order in
    which the library enumerates its entries, are not part of the model. *)
Definition Zip := list (string * list Byte.byte).

Fixpoint zipFile (entryName : string) (data : list Byte.byte) (zip : Zip) : Zip :=
  match zip with
  | [] => [(entryName, data)]
  | (n, d) :: rest =>
      if decide (n = entryName) then (n, data) :: rest
      else (n, d) :: zipFile entryName data rest
  end.

(** The loop of the download button, lines 258-263, threading [usedNames]
    and [zip]; [blobToArrayBuffer] reads the bytes of an in-memory blob. *)
Fixpoint packLoop (results : list Result) (usedNames : gset string) (zip : Zip)
    : option (gset string * Zip) :=
  match results with
  | [] => Some (usedNames, zip)
  | result :: rest =>
      let arrayBuffer := blob_data (result_blob result) in
      match getUniqueFilename (filename result) usedNames with
      | None => None
      | Some uniqueName =>
          packLoop rest ({[uniqueName]} ∪ usedNames) (zipFile uniqueName arrayBuffer zip)
      end
  end.

(** The [click] handler of the download button up to [generateAsync],
    lines 252-263: the entries of the archive that is offered, or no
    archive at all when there is no result. *)
Definition pack (results : list Result) : option Zip :=
  if (length results =? 0)%nat then None
  else snd <$> packLoop results ∅ [].

(** [c] occurs in [s]. *)
Fixpoint hasChar (c : ascii) (s : string) : bool :=
  match s with
  | EmptyString => false
  | String a s' => bool_decide (a = c) || hasChar c s'
  end.

(** The bytes written for the results, in order. *)
Definition payloads (results : list Result) : list (list Byte.byte) :=
  (fun r => blob_data (result_blob r)) <$> results.

(** The page after [items] and [errs] have been pushed, in this order, on
    [originalFiles] and [errorResults]. *)
Definition extendRun (items : list SourceItem) (errs : list string) (p : Page) : Page :=
  set_errorResults (errorResults p ++ errs) (set_originalFiles (originalFiles p ++ items) p).

(** The format tags with the content type each stands for, as in
    [imageMimeMap]. *)
Definition formatTags : list (string * string) :=
  [("png", "image/png"); ("jpeg", "image/jpeg"); ("webp", "image/webp")].

(** The tag of an accepted item and the type of its blob. *)
Definition tagOf (item : SourceItem) : string * string :=
  (format item, blob_type (blob item)).

(** ** A small browser to run the handlers on

    An image is a non-empty row of bytes, one pixel each; a blob decodes
    when it has at least one byte, and a canvas is encoded as the row drawn
    on it. *)
Module Sample.

Definition DataURL : Type := Blob.
Definition readAsDataURL (b : Blob) : option DataURL := Some b.

Definition Image : Type := (Byte.byte * list Byte.byte)%type.
Definition width (img : Image) : N := N.of_nat (S (length (snd img))).
Definition height (img : Image) : N := 1%N.

Definition loadImage (url : DataURL) : option Image :=
  match blob_data url with
  | [] => None
  | px :: row => Some (px, row)
  end.

Definition toBlob (canvas : Canvas Image) (mimeType : string) : option Blob :=
  match canvas_bitmap canvas with
  | None => None
  | Some (px, row) => Some {| blob_data := px :: row; blob_type := mimeType |}
  end.


Definition createObjectURL (b : Blob) : string := "blob:" +:+ blob_type b.

Definition entries : list ZipEntry :=
  [ mkEntry "img/" true None;
    mkEntry "img/a.PNG" false (Some [Byte.x01]);
    mkEntry "img/b.jpg" false (Some [Byte.x02; Byte.x03]);
    mkEntry "notes.txt" false (Some [Byte.x04]);
    mkEntry "README" false (Some []);
    mkEntry "c.webp" false (Some [Byte.x05]) ].

Definition loadAsync (bytes : list Byte.byte) : option (list ZipEntry) :=
  match bytes with
  | [] => None
  | _ :: _ => Some entries
  end.

(** The page before any file is selected. *)
Definition page0 : Page :=
  mkPage [] [] [] (mkSelect "" false) jpeg true true [].

Definition item (n : string) (bytes : list Byte.byte) (t : string) : SourceItem :=
  mkItem (mkBlob bytes ("image/" +:+ t)) n t.

End Sample.

(** * Facts about the string primitives *)

Module JsStringFacts.

Lemma str_app_nil_l (s : string) : "" +:+ s = s.
Proof. reflexivity. Qed.

Lemma str_app_cons (c : ascii) (s t : string) : String c s +:+ t = String c (s +:+ t).
Proof. reflexivity. Qed.

Lemma str_app_nil_r (s : string) : s +:+ "" = s.
Proof. induction s as [|c s IH]; [done|]. by rewrite str_app_cons, IH. Qed.

Lemma str_app_assoc (s t u : string) : (s +:+ t) +:+ u = s +:+ t +:+ u.
Proof. induction s as [|c s IH]; [done|]. by rewrite !str_app_cons, IH. Qed.

Lemma str_app_length (s t : string) :
  String.length (s +:+ t) = String.length s + String.length t.
Proof. induction s as [|c s IH]; [done|]. rewrite str_app_cons. simpl. by rewrite IH. Qed.

(** Cancellation of a common suffix. *)
Lemma str_app_inj_r (s t u : string) : s +:+ u = t +:+ u → s = t.
Proof.
  revert t. induction s as [|c s IH]; intros [|d t] H; [done| | |].
  - apply (f_equal String.length) in H. rewrite str_app_nil_l, str_app_cons in H.
    simpl in H. rewrite str_app_length in H. lia.
  - apply (f_equal String.length) in H. rewrite str_app_nil_l, str_app_cons in H.
    simpl in H. rewrite str_app_length in H. lia.
  - rewrite !str_app_cons in H. injection H as -> H. f_equal. by apply IH.
Qed.

Lemma split_nonempty (sep : ascii) (s : string) : split sep s ≠ [].
Proof.
  destruct s as [|c s]; simpl; [done|].
  destruct (decide (c = sep)); [done|]. by destruct (split sep s).
Qed.

(** A string without the separator is a single segment. *)
Lemma split_hasChar_false (sep : ascii) (s : string) :
  hasChar sep s = false → split sep s = [s].
Proof.
  induction s as [|c s IH]; simpl; [done|].
  intros [Hc Hs]%orb_false_iff. apply bool_decide_eq_false in Hc.
  destruct (decide (c = sep)); [done|]. by rewrite (IH Hs).
Qed.

(** Splitting distributes over a separator in the middle. *)
Lemma split_app_sep (sep : ascii) (s t : string) :
  split sep (s +:+ String sep t) = split sep s ++ split sep t.
Proof.
  induction s as [|c s IH].
  - rewrite str_app_nil_l. simpl. by destruct (decide (sep = sep)).
  - rewrite str_app_cons. simpl. destruct (decide (c = sep)).
    + by rewrite IH.
    + rewrite IH. destruct (split sep s) as [|p ps] eqn:E; [|done].
      by apply split_nonempty in E.
Qed.

(** The segments of [base.e], for an extension [e] without a dot. *)
Lemma split_base_ext (sep : ascii) (base e : string) :
  hasChar sep e = false →
  split sep (base +:+ String sep e) = split sep base ++ [e].
Proof. intros He. by rewrite split_app_sep, (split_hasChar_false _ _ He). Qed.

(** A string with a separator is [base], the separator, and a last
    segment without it. *)
Lemma last_sep_decompose (sep : ascii) (s : string) :
  hasChar sep s = true →
  ∃ base e, s = base +:+ String sep e ∧ hasChar sep e = false.
Proof.
  induction s as [|c s IH]; simpl; [done|].
  destruct (hasChar sep s) eqn:Hs.
  - intros _. destruct (IH eq_refl) as (base & e & -> & He).
    exists (String c base), e. by rewrite str_app_cons.
  - rewrite orb_false_r. intros ->%bool_decide_eq_true.
    exists "", s. by rewrite str_app_nil_l.
Qed.

Lemma join_snoc (sep : string) (l : list string) (x : string) :
  l ≠ [] → join sep (l ++ [x]) = join sep l +:+ sep +:+ x.
Proof.
  induction l as [|p [|q l] IH]; intros Hl; [done|done|].
  change (join sep ((p :: q :: l) ++ [x]))
    with (p +:+ sep +:+ join sep ((q :: l) ++ [x])).
  rewrite IH by done.
  change (join sep (p :: q :: l)) with (p +:+ sep +:+ join sep (q :: l)).
  by rewrite !str_app_assoc.
Qed.

(** [split] then [join] with the same separator is the identity. *)
Lemma join_split (sep : ascii) (s : string) :
  join (String sep "") (split sep s) = s.
Proof.
  induction s as [|c s IH]; [done|]. simpl split.
  destruct (decide (c = sep)) as [->|Hc].
  - destruct (split sep s) as [|p ps] eqn:E; [by apply split_nonempty in E|].
    change (join (String sep "") ("" :: p :: ps))
      with ("" +:+ String sep "" +:+ join (String sep "") (p :: ps)).
    by rewrite IH.
  - destruct (split sep s) as [|p [|q ps]] eqn:E; [by apply split_nonempty in E| |].
    + simpl in *. by rewrite IH.
    + change (join (String sep "") (String c p :: q :: ps))
        with (String c (p +:+ String sep "" +:+ join (String sep "") (q :: ps))).
      by rewrite <- IH.
Qed.

Lemma pop_snoc (l : list string) (x : string) : pop (l ++ [x]) = (Some x, l).
Proof.
  induction l as [|p l IH]; [done|].
  change ((p :: l) ++ [x]) with (p :: (l ++ [x])). simpl.
  rewrite IH. by destruct l.
Qed.

Lemma insert_last_snoc (l : list string) (x y : string) :
  <[length (l ++ [x]) - 1 := y]> (l ++ [x]) = l ++ [y].
Proof.
  rewrite length_app. simpl.
  replace (length l + 1 - 1) with (length l + 0) by lia.
  by rewrite insert_app_r.
Qed.

Lemma toLowerCase_app (s t : string) :
  toLowerCase (s +:+ t) = toLowerCase s +:+ toLowerCase t.
Proof. induction s as [|c s IH]; [done|]. rewrite str_app_cons. simpl. by rewrite IH, str_app_cons. Qed.

Lemma endsWith_refl (s : string) : endsWith s s = true.
Proof. destruct s; [done|]. simpl. by rewrite bool_decide_eq_true_2. Qed.

Lemma endsWith_app (s t : string) : endsWith (s +:+ t) t = true.
Proof.
  induction s as [|c s IH]; [apply endsWith_refl|].
  rewrite str_app_cons. simpl. rewrite IH. apply orb_true_r.
Qed.

End JsStringFacts.

Import JsStringFacts.

(** * Facts about the collision loop *)

Section UniqueLoop.

Variables (baseName ext : string) (usedNames : gset string).

(** Different counters give different candidates. *)
Lemma candidate_inj (n m : nat) :
  candidate baseName ext n = candidate baseName ext m → n = m.
Proof.
  unfold candidate. intros H.
  apply (inj (String.app baseName)) in H.
  apply (inj (String.app "(")) in H.
  apply str_app_inj_r in H. by apply (inj pretty) in H.
Qed.

(** What the loop returns is the candidate of the first counter, from the
    one it was started at, whose candidate is unused. *)
Lemma uniqueLoop_Some (fuel counter : nat) (r : string) :
  uniqueLoop fuel baseName ext usedNames counter = Some r →
  ∃ n, counter ≤ n ∧ r = candidate baseName ext n ∧ (r ∉ usedNames) ∧
       (∀ k, counter ≤ k < n → candidate baseName ext k ∈ usedNames).
Proof.
  revert counter. induction fuel as [|fuel IH]; intros counter; simpl; [done|].
  destruct (decide (candidate baseName ext counter ∈ usedNames)) as [Hin|Hout].
  - intros (n & Hn & -> & Hr & Hk)%IH. exists n. split_and!; [lia|done|done|].
    intros k Hk'. destruct (decide (k = counter)) as [->|]; [done|]. apply Hk. lia.
  - intros [= <-]. exists counter. split_and!; [lia|done|done|]. intros k. lia.
Qed.

(** When the bound is reached, every candidate tried was in use. *)
Lemma uniqueLoop_None (fuel counter : nat) :
  uniqueLoop fuel baseName ext usedNames counter = None →
  ∀ k, counter ≤ k < counter + fuel → candidate baseName ext k ∈ usedNames.
Proof.
  revert counter. induction fuel as [|fuel IH]; intros counter; simpl.
  - intros _ k. lia.
  - destruct (decide (candidate baseName ext counter ∈ usedNames)) as [Hin|Hout]; [|done].
    intros H k Hk. destruct (decide (k = counter)) as [->|]; [done|].
    apply (IH _ H). lia.
Qed.

(** More iterations than there are used names always find a free one. *)
Lemma uniqueLoop_total (fuel counter : nat) :
  size usedNames < fuel →
  is_Some (uniqueLoop fuel baseName ext usedNames counter).
Proof.
  intros Hfuel.
  destruct (uniqueLoop fuel baseName ext usedNames counter) eqn:E; [by eexists|].
  exfalso. pose proof (uniqueLoop_None _ _ E) as Hall.
  set (tried := candidate baseName ext <$> seq counter fuel).
  assert (NoDup tried) as Hnd.
  { apply NoDup_fmap_2_strong; [|apply NoDup_seq].
    intros n m _ _. apply candidate_inj. }
  assert (list_to_set tried ⊆ usedNames) as Hsub.
  { intros x (y & -> & Hy%elem_of_seq)%elem_of_list_to_set%list_elem_of_fmap.
    apply Hall. lia. }
  apply subseteq_size in Hsub. rewrite size_list_to_set in Hsub by done.
  unfold tried in Hsub. rewrite length_fmap, length_seq in Hsub. lia.
Qed.

End UniqueLoop.

(** [getUniqueFilename] returns a name on every input. *)
Lemma getUniqueFilename_total (filename : string) (usedNames : gset string) :
  is_Some (getUniqueFilename filename usedNames).
Proof.
  unfold getUniqueFilename.
  destruct (decide (filename ∈ usedNames)) as [Hin|Hout]; [|by eexists].
  destruct (pop (split "." filename)) as [x parts].
  apply uniqueLoop_total. lia.
Qed.

(** The name returned is not in the set it was computed against. *)
Lemma getUniqueFilename_fresh (filename u : string) (usedNames : gset string) :
  getUniqueFilename filename usedNames = Some u → u ∉ usedNames.
Proof.
  unfold getUniqueFilename.
  destruct (decide (filename ∈ usedNames)) as [Hin|Hout]; [|by intros [= <-]].
  destruct (pop (split "." filename)) as [x parts].
  by intros (n & _ & _ & Hu & _)%uniqueLoop_Some.
Qed.

Lemma getUniqueFilename_unused (filename : string) (usedNames : gset string) :
  filename ∉ usedNames → getUniqueFilename filename usedNames = Some filename.
Proof. intros H. unfold getUniqueFilename. by destruct (decide (filename ∈ usedNames)). Qed.

(** A colliding name [base.e], with [e] free of dots: the counter is the
    least one from 1 whose candidate is unused. *)
Lemma getUniqueFilename_collision (base e : string) (usedNames : gset string) :
  hasChar "." e = false →
  base +:+ "." +:+ e ∈ usedNames →
  ∃ n, 1 ≤ n ∧
    getUniqueFilename (base +:+ "." +:+ e) usedNames
      = Some (candidate (baseOrFile base) e n) ∧
    (candidate (baseOrFile base) e n ∉ usedNames) ∧
    (∀ k, 1 ≤ k < n → candidate (baseOrFile base) e k ∈ usedNames).
Proof.
  intros He Hin. unfold getUniqueFilename.
  destruct (decide (base +:+ "." +:+ e ∈ usedNames)); [|done].
  change (base +:+ "." +:+ e) with (base +:+ String "." e).
  rewrite (split_base_ext "." base e He), pop_snoc, join_split.
  simpl show.
  destruct (uniqueLoop_total (baseOrFile base) e usedNames (S (size usedNames)) 1)
    as [r Hr]; [lia|].
  rewrite Hr. destruct (uniqueLoop_Some _ _ _ _ _ _ Hr) as (n & Hn & -> & Hout & Hk).
  by exists n.
Qed.

(** A colliding name without any dot: the whole name is taken for the
    extension and the base is replaced by [file]. *)
Lemma getUniqueFilename_collision_nodot (filename : string) (usedNames : gset string) :
  hasChar "." filename = false →
  filename ∈ usedNames →
  ∃ n, 1 ≤ n ∧
    getUniqueFilename filename usedNames = Some (candidate "file" filename n) ∧
    (candidate "file" filename n ∉ usedNames).
Proof.
  intros He Hin. unfold getUniqueFilename.
  destruct (decide (filename ∈ usedNames)); [|done].
  rewrite (split_hasChar_false "." filename He).
  change (pop [filename]) with (Some filename, @nil string).
  cbv beta iota zeta.
  change (baseOrFile (join "." [])) with "file".
  change (show (Some filename)) with filename.
  destruct (uniqueLoop_total "file" filename usedNames (S (size usedNames)) 1)
    as [r Hr]; [lia|].
  rewrite Hr.
  destruct (uniqueLoop_Some _ _ _ _ _ _ Hr) as (n & Hn & -> & Hout & Hk).
  by exists n.
Qed.

(** * Facts about the pack loop *)

(** Adding an entry under a name the archive does not have appends it. *)
Lemma zipFile_fresh (n : string) (d : list Byte.byte) (zip : Zip) :
  n ∉ zip.*1 → zipFile n d zip = zip ++ [(n, d)].
Proof.
  induction zip as [|[m e] zip IH]; simpl; [done|].
  intros [Hm Hn]%not_elem_of_cons.
  destruct (decide (m = n)); [congruence|]. by rewrite IH.
Qed.

(** The invariant of the loop: [usedNames] is the set of entry names of the
    archive, and these are pairwise distinct.  Under it the loop finishes,
    and appends one entry per result, in order. *)
Lemma packLoop_invariant (results : list Result) (usedNames : gset string) (zip : Zip) :
  (∀ x, x ∈ zip.*1 ↔ x ∈ usedNames) →
  NoDup zip.*1 →
  ∃ usedNames' added,
    packLoop results usedNames zip = Some (usedNames', zip ++ added) ∧
    (∀ x, x ∈ (zip ++ added).*1 ↔ x ∈ usedNames') ∧
    NoDup (zip ++ added).*1 ∧
    added.*2 = payloads results.
Proof.
  revert usedNames zip. induction results as [|r results IH]; intros usedNames zip Hset Hnd.
  - exists usedNames, []. rewrite app_nil_r. by simpl.
  - simpl. destruct (getUniqueFilename_total (filename r) usedNames) as [u Hu].
    rewrite Hu. pose proof (getUniqueFilename_fresh _ _ _ Hu) as Hfresh.
    assert (u ∉ zip.*1) as Hzip by (by rewrite Hset).
    rewrite (zipFile_fresh _ _ _ Hzip).
    destruct (IH ({[u]} ∪ usedNames) (zip ++ [(u, blob_data (result_blob r))]))
      as (used' & added & Hloop & Hset' & Hnd' & Hpay).
    + intros x. rewrite fmap_app, elem_of_app, Hset. simpl.
      rewrite list_elem_of_singleton, elem_of_union, elem_of_singleton. tauto.
    + rewrite fmap_app. simpl. apply NoDup_app. split_and!; [done| |apply NoDup_singleton].
      intros x Hx ->%list_elem_of_singleton. done.
    + exists used', ((u, blob_data (result_blob r)) :: added).
      rewrite <- app_assoc in Hloop, Hset', Hnd'.
      split_and!; [done|done|done|]. unfold payloads in *. simpl. by f_equal.
Qed.

(** From the empty archive, as the handler starts it. *)
Lemma packLoop_start (results : list Result) :
  ∃ usedNames zip,
    packLoop results ∅ [] = Some (usedNames, zip) ∧
    (∀ x, x ∈ zip.*1 ↔ x ∈ usedNames) ∧
    NoDup zip.*1 ∧
    zip.*2 = payloads results.
Proof.
  destruct (packLoop_invariant results ∅ []) as (used & added & H); [set_solver|constructor|].
  by exists used, added.
Qed.

(** * The claims about the bulk download *)

(** C4: the pack loop writes one entry per result, in result order; a name
    not yet used is kept verbatim; a colliding name [base.e] (non-empty
    base, [e] the part after the last dot) becomes [base(n).e] for the
    least [n] from 1 whose name is unused; two results named [a.png] are
    written as [a.png] and [a(1).png], three named [b.png] as [b.png],
    [b(1).png] and [b(2).png]. *)
Theorem pack_collision_naming :
  (∀ results, results ≠ [] →
     ∃ zip, pack results = Some zip ∧ zip.*2 = payloads results) ∧
  (∀ filename usedNames,
     filename ∉ usedNames → getUniqueFilename filename usedNames = Some filename) ∧
  (∀ base e usedNames,
     base ≠ "" → hasChar "." e = false → base +:+ "." +:+ e ∈ usedNames →
     ∃ n, 1 ≤ n ∧
       getUniqueFilename (base +:+ "." +:+ e) usedNames
         = Some (base +:+ "(" +:+ pretty n +:+ ")." +:+ e) ∧
       (base +:+ "(" +:+ pretty n +:+ ")." +:+ e ∉ usedNames) ∧
       (∀ k, 1 ≤ k < n → base +:+ "(" +:+ pretty k +:+ ")." +:+ e ∈ usedNames)) ∧
  (∀ b1 b2,
     pack [mkResult b1 "a.png"; mkResult b2 "a.png"]
       = Some [("a.png", blob_data b1); ("a(1).png", blob_data b2)]) ∧
  (∀ b1 b2 b3,
     pack [mkResult b1 "b.png"; mkResult b2 "b.png"; mkResult b3 "b.png"]
       = Some [("b.png", blob_data b1); ("b(1).png", blob_data b2);
               ("b(2).png", blob_data b3)]).
Proof.
  split_and!.
  - intros results Hne. unfold pack.
    destruct results as [|r results]; [done|].
    change (length (r :: results) =? 0) with false. cbv iota.
    destruct (packLoop_start (r :: results)) as (used & zip & -> & _ & _ & Hpay).
    by exists zip.
  - apply getUniqueFilename_unused.
  - intros base e usedNames Hbase He Hin.
    destruct (getUniqueFilename_collision base e usedNames He Hin)
      as (n & Hn & Hget & Hout & Hk).
    unfold baseOrFile in *. destruct (decide (base = "")); [done|].
    by exists n.
  - intros b1 b2. by vm_compute.
  - intros b1 b2 b3. by vm_compute.
Qed.

(** The collision rule of C4 on the two names of its examples. *)
Lemma pack_collision_naming_witness :
  (∃ zip, pack [mkResult (mkBlob [] "image/png") "a.png";
                mkResult (mkBlob [] "image/png") "a.png"] = Some zip ∧
          zip.*2 = payloads [mkResult (mkBlob [] "image/png") "a.png";
                             mkResult (mkBlob [] "image/png") "a.png"]) ∧
  getUniqueFilename "a.png" ∅ = Some "a.png" ∧
  (∃ n, 1 ≤ n ∧
     getUniqueFilename ("a" +:+ "." +:+ "png") {["a.png"]}
       = Some ("a" +:+ "(" +:+ pretty n +:+ ")." +:+ "png") ∧
     ("a" +:+ "(" +:+ pretty n +:+ ")." +:+ "png" ∉ ({["a.png"]} : gset string)) ∧
     (∀ k, 1 ≤ k < n →
        "a" +:+ "(" +:+ pretty k +:+ ")." +:+ "png" ∈ ({["a.png"]} : gset string))).
Proof.
  destruct pack_collision_naming as (Horder & Hkeep & Hcollide & _).
  split_and!.
  - apply Horder. discriminate.
  - apply Hkeep. apply not_elem_of_empty.
  - apply Hcollide; [discriminate|reflexivity|]. by apply elem_of_singleton.
Defined.

(** C10: from the empty archive the pack loop finishes on every sequence
    of results, the entry names it writes are pairwise distinct, one per
    result, and the used-name set is exactly the set of names written;
    the name computed for a result is never in the used-name set, and it
    is in the set the next result is processed with. *)
Theorem pack_names_distinct (results : list Result) :
  (∃ usedNames zip,
     packLoop results ∅ [] = Some (usedNames, zip) ∧
     NoDup zip.*1 ∧
     length zip = length results ∧
     (∀ x, x ∈ zip.*1 ↔ x ∈ usedNames)) ∧
  (∀ filename usedNames,
     ∃ u, getUniqueFilename filename usedNames = Some u ∧ (u ∉ usedNames)) ∧
  (∀ r rest usedNames zip u,
     getUniqueFilename (filename r) usedNames = Some u →
     u ∈ {[u]} ∪ usedNames ∧
     packLoop (r :: rest) usedNames zip
       = packLoop rest ({[u]} ∪ usedNames) (zipFile u (blob_data (result_blob r)) zip)) ∧
  (∀ zip, pack results = Some zip → NoDup zip.*1 ∧ length zip = length results).
Proof.
  destruct (packLoop_start results) as (used & zip & Hloop & Hset & Hnd & Hpay).
  assert (length zip = length results) as Hlen.
  { apply (f_equal length) in Hpay. unfold payloads in Hpay.
    by rewrite !length_fmap in Hpay. }
  split_and!.
  - by exists used, zip.
  - intros filename usedNames.
    destruct (getUniqueFilename_total filename usedNames) as [u Hu].
    exists u. split; [done|]. by apply getUniqueFilename_fresh in Hu.
  - intros r rest usedNames zip' u Hu.
    split; [by apply elem_of_union_l, elem_of_singleton|]. simpl. by rewrite Hu.
  - intros zip'. unfold pack. destruct (length results =? 0); [done|].
    rewrite Hloop. simpl. by intros [= <-].
Qed.

(** * Facts about file names *)

(** The extension of [base.e], for [e] without a dot, is [e]. *)
Lemma getExtension_base_ext (base e : string) :
  hasChar "." e = false → getExtension (base +:+ "." +:+ e) = e.
Proof.
  intros He. unfold getExtension.
  change (base +:+ "." +:+ e) with (base +:+ String "." e).
  rewrite (split_base_ext "." base e He), length_app, last_snoc.
  destruct (split "." base) as [|s l] eqn:E; [by apply split_nonempty in E|].
  simpl length.
  destruct (S (length l) + 1 <=? 1) eqn:Hle; [apply Nat.leb_le in Hle; lia|done].
Qed.

(** A name without a dot has the empty extension. *)
Lemma getExtension_nodot (s : string) : hasChar "." s = false → getExtension s = "".
Proof. intros Hs. unfold getExtension. by rewrite (split_hasChar_false "." s Hs). Qed.

Lemma changeExtension_base_ext (base e newExt : string) :
  hasChar "." e = false →
  changeExtension (base +:+ "." +:+ e) newExt = base +:+ "." +:+ newExt.
Proof.
  intros He. unfold changeExtension.
  change (base +:+ "." +:+ e) with (base +:+ String "." e).
  rewrite (split_base_ext "." base e He).
  destruct (length (split "." base ++ [e]) <=? 1) eqn:Hle.
  { apply Nat.leb_le in Hle. rewrite length_app in Hle.
    destruct (split "." base) eqn:E; [by apply split_nonempty in E|].
    simpl in Hle. lia. }
  rewrite insert_last_snoc, join_snoc by apply split_nonempty.
  by rewrite join_split.
Qed.

Lemma changeExtension_nodot (s newExt : string) :
  hasChar "." s = false → changeExtension s newExt = s +:+ "." +:+ newExt.
Proof. intros Hs. unfold changeExtension. by rewrite (split_hasChar_false "." s Hs). Qed.

(** A file whose extension is [zip], in any case, is recognized as an
    archive by its name. *)
Lemma zip_extension_is_archive (file : File) :
  toLowerCase (getExtension (name file)) = "zip" → isZipFile file = true.
Proof.
  intros H. unfold isZipFile. destruct (hasChar "." (name file)) eqn:Hdot.
  - destruct (last_sep_decompose _ _ Hdot) as (base & e & Hname & He).
    rewrite Hname in *.
    change (base +:+ String "." e) with (base +:+ "." +:+ e) in H.
    rewrite getExtension_base_ext in H by done.
    rewrite toLowerCase_app.
    change (toLowerCase (String "." e)) with (String "." (toLowerCase e)).
    rewrite H. change (String "." "zip") with ".zip". by rewrite endsWith_app.
  - rewrite getExtension_nodot in H by done. discriminate.
Qed.

(** * Facts about the normalizer *)

Lemma handleRegularFile_png (file : File) (p : Page) :
  type file = "image/png" →
  handleRegularFile file p
    = pushOriginal {| blob := fileBlob file; originalName := name file; format := "png" |} p.
Proof. destruct file as [n t c]. simpl. by intros ->. Qed.

Lemma handleRegularFile_jpeg (file : File) (p : Page) :
  type file = "image/jpeg" →
  handleRegularFile file p
    = pushOriginal {| blob := fileBlob file; originalName := name file; format := "jpeg" |} p.
Proof. destruct file as [n t c]. simpl. by intros ->. Qed.

Lemma handleRegularFile_webp (file : File) (p : Page) :
  type file = "image/webp" →
  handleRegularFile file p
    = pushOriginal {| blob := fileBlob file; originalName := name file; format := "webp" |} p.
Proof. destruct file as [n t c]. simpl. by intros ->. Qed.

(** Any other declared type: nothing is accepted, and one of the three
    rejection messages is pushed for the file. *)
Lemma handleRegularFile_other (file : File) (p : Page) :
  type file ≠ "image/png" → type file ≠ "image/jpeg" → type file ≠ "image/webp" →
  ∃ reason,
    (reason = " は非対応の画像形式です。" ∨
     reason = " のZIP処理中に問題がありました。" ∨
     reason = " は非対応の拡張子です。") ∧
    handleRegularFile file p = pushError (name file +:+ reason) p.
Proof.
  intros H1 H2 H3. unfold handleRegularFile.
  destruct (isImageFileSupported file).
  - destruct (decide (type file = "image/png")); [done|].
    destruct (decide (type file = "image/jpeg")); [done|].
    destruct (decide (type file = "image/webp")); [done|]. eauto.
  - destruct (decide (toLowerCase (getExtension (name file)) = "zip")); eauto 6.
Qed.

(** * The claims about the normalizer *)

(** C2: a loose file is classified by its declared type alone: [image/png]
    is accepted as [png], [image/jpeg] as [jpeg], [image/webp] as [webp],
    whatever the name; any other declared type is rejected, whatever the
    extension.  [photo.txt] declared [image/png] is accepted as [png], and
    [photo.png] declared [text/plain] is rejected. *)
Theorem loose_file_classified_by_type
    (loadAsync : list Byte.byte → option (list ZipEntry)) (file : File) (p : Page) :
  (isZipFile file = false → handleFile loadAsync p file = handleRegularFile file p) ∧
  (type file = "image/png" →
     handleRegularFile file p
       = pushOriginal {| blob := fileBlob file; originalName := name file; format := "png" |} p) ∧
  (type file = "image/jpeg" →
     handleRegularFile file p
       = pushOriginal {| blob := fileBlob file; originalName := name file; format := "jpeg" |} p) ∧
  (type file = "image/webp" →
     handleRegularFile file p
       = pushOriginal {| blob := fileBlob file; originalName := name file; format := "webp" |} p) ∧
  (type file ≠ "image/png" → type file ≠ "image/jpeg" → type file ≠ "image/webp" →
     originalFiles (handleRegularFile file p) = originalFiles p ∧
     ∃ reason, errorResults (handleRegularFile file p)
                 = errorResults p ++ [name file +:+ reason]) ∧
  originalFiles (handleFile loadAsync p (mkFile "photo.txt" "image/png" (content file)))
    = originalFiles p ++ [mkItem (mkBlob (content file) "image/png") "photo.txt" "png"] ∧
  originalFiles (handleFile loadAsync p (mkFile "photo.png" "text/plain" (content file)))
    = originalFiles p.
Proof.
  split_and!.
  - intros Hzip. unfold handleFile. by rewrite Hzip.
  - apply handleRegularFile_png.
  - apply handleRegularFile_jpeg.
  - apply handleRegularFile_webp.
  - intros H1 H2 H3.
    destruct (handleRegularFile_other file p H1 H2 H3) as (reason & _ & ->).
    split; [done|]. by exists reason.
  - reflexivity.
  - reflexivity.
Qed.

(** C2 on a loose file named [photo.txt] that declares [image/png]. *)
Lemma loose_file_classified_by_type_witness :
  handleRegularFile (mkFile "photo.txt" "image/png" [Byte.x89]) Sample.page0
    = pushOriginal (mkItem (mkBlob [Byte.x89] "image/png") "photo.txt" "png") Sample.page0.
Proof.
  destruct (loose_file_classified_by_type Sample.loadAsync
              (mkFile "photo.txt" "image/png" [Byte.x89]) Sample.page0)
    as (_ & Hpng & _).
  apply Hpng. reflexivity.
Defined.

(** C9, as the code has it: a loose file that is not recognized as an
    archive and whose declared type contains none of [image/png],
    [image/jpeg], [image/webp] gets the unsupported-extension message; its
    extension is never [zip], so the archive-problem message, which
    [handleRegularFile] has for such an extension, is not reached from the
    dispatch.  A declared type that contains one of the three but is not
    equal to it gets the unsupported-image-format message instead. *)
Theorem loose_reject_diagnostics
    (loadAsync : list Byte.byte → option (list ZipEntry)) (file : File) (p : Page) :
  isZipFile file = false →
  (isImageFileSupported file = false →
     toLowerCase (getExtension (name file)) ≠ "zip" ∧
     handleFile loadAsync p file = pushError (name file +:+ " は非対応の拡張子です。") p) ∧
  (isImageFileSupported file = true →
     type file ≠ "image/png" → type file ≠ "image/jpeg" → type file ≠ "image/webp" →
     handleFile loadAsync p file = pushError (name file +:+ " は非対応の画像形式です。") p) ∧
  (∀ other : File,
     isImageFileSupported other = false →
     toLowerCase (getExtension (name other)) = "zip" →
     handleRegularFile other p
       = pushError (name other +:+ " のZIP処理中に問題がありました。") p).
Proof.
  intros Hzip.
  assert (toLowerCase (getExtension (name file)) ≠ "zip") as Hext.
  { intros H%zip_extension_is_archive. congruence. }
  unfold handleFile. rewrite Hzip. split_and!.
  - intros Himg. split; [done|]. unfold handleRegularFile. rewrite Himg.
    by destruct (decide (toLowerCase (getExtension (name file)) = "zip")).
  - intros Himg H1 H2 H3. unfold handleRegularFile. rewrite Himg.
    destruct (decide (type file = "image/png")); [done|].
    destruct (decide (type file = "image/jpeg")); [done|].
    by destruct (decide (type file = "image/webp")).
  - intros other Himg Hother. unfold handleRegularFile. rewrite Himg.
    by destruct (decide (toLowerCase (getExtension (name other)) = "zip")).
Qed.

(** C9 on a text file. *)
Lemma loose_reject_diagnostics_witness :
  handleFile Sample.loadAsync Sample.page0 (mkFile "notes.txt" "text/plain" [])
    = pushError "notes.txt は非対応の拡張子です。" Sample.page0.
Proof.
  destruct (loose_reject_diagnostics Sample.loadAsync
              (mkFile "notes.txt" "text/plain" []) Sample.page0 eq_refl)
    as (Hext & _).
  apply Hext. reflexivity.
Defined.

(** C9 as stated fails: [scan.jp2] declared [image/jpeg2000] is not an
    archive, its declared type is none of the three supported ones and its
    extension is not [zip], yet the message pushed is the
    unsupported-image-format one, not the unsupported-extension one. *)
Lemma loose_reject_counterexample :
  let file := mkFile "scan.jp2" "image/jpeg2000" [] in
  isZipFile file = false ∧
  (type file ∉ ["image/png"; "image/jpeg"; "image/webp"]) ∧
  toLowerCase (getExtension (name file)) = "jp2" ∧
  errorResults (handleFile Sample.loadAsync Sample.page0 file)
    = ["scan.jp2 は非対応の画像形式です。"] ∧
  errorResults (handleFile Sample.loadAsync Sample.page0 file)
    ≠ ["scan.jp2 は非対応の拡張子です。"].
Proof.
  split_and!; [reflexivity| |reflexivity|reflexivity|discriminate].
  intros H. repeat (apply elem_of_cons in H as [H|H]; [discriminate|]).
  by apply elem_of_nil in H.
Qed.

(** One step of the loop of [handleZipFile] on an entry that is not a
    directory and whose lower-cased extension is [x]. *)
Lemma zipEntriesLoop_step (zipEntry : ZipEntry) (rest : list ZipEntry) (p : Page) (x : string) :
  dir zipEntry = false →
  toLowerCase (getExtension (entryName zipEntry)) = x →
  zipEntriesLoop (zipEntry :: rest) p =
    if negb (bool_decide (x ∈ supportedExtensions)) then
      zipEntriesLoop rest (pushError (entryName zipEntry +:+ " は非対応の拡張子です。") p)
    else if decide (guessMimeTypeFromExt x = "") then
      zipEntriesLoop rest (pushError (entryName zipEntry +:+ " は処理できません。") p)
    else
      match entryData zipEntry with
      | None => (p, true)
      | Some fileData =>
          zipEntriesLoop rest
            (pushOriginal
               {| blob := {| blob_data := fileData; blob_type := guessMimeTypeFromExt x |};
                  originalName := entryName zipEntry;
                  format := if decide (x = "jpg") then "jpeg"
                            else if decide (x = "jpeg") then "jpeg" else x |} p)
      end.
Proof.
  intros Hdir Hx. unfold zipEntriesLoop at 1; fold zipEntriesLoop.
  by rewrite Hdir, Hx.
Qed.

(** The archive of the sample browser through [handleZipFile]: the three
    images are accepted in archive order, the directory is skipped, and
    [notes.txt] and [README] are rejected by name. *)
Example handleZipFile_sample :
  let q := handleZipFile Sample.loadAsync (mkFile "pics.zip" "" [Byte.x50]) Sample.page0 in
  originalFiles q
    = [ mkItem (mkBlob [Byte.x01] "image/png") "img/a.PNG" "png";
        mkItem (mkBlob [Byte.x02; Byte.x03] "image/jpeg") "img/b.jpg" "jpeg";
        mkItem (mkBlob [Byte.x05] "image/webp") "c.webp" "webp" ] ∧
  errorResults q = [ "notes.txt は非対応の拡張子です。"; "README は非対応の拡張子です。" ].
Proof. split; reflexivity. Qed.

(** * Facts about the source-format selector *)

Lemma fold_setAdd_same (t : string) (xs : list string) :
  (∀ x, x ∈ xs → x = t) → fold_left setAdd xs [t] = [t].
Proof.
  induction xs as [|x xs IH]; intros Hall; [done|]. simpl.
  rewrite (Hall x) by apply list_elem_of_here.
  unfold setAdd at 2. rewrite decide_True by apply list_elem_of_here.
  apply IH. intros y Hy. apply Hall. by apply list_elem_of_further.
Qed.

(** The set of a non-empty array whose elements are all [t] is [{t}]. *)
Lemma newSet_same (t : string) (xs : list string) :
  xs ≠ [] → (∀ x, x ∈ xs → x = t) → newSet xs = [t].
Proof.
  destruct xs as [|x xs]; [done|]. intros _ Hall. unfold newSet. simpl.
  rewrite (Hall x) by apply list_elem_of_here.
  change (setAdd [] t) with [t].
  apply fold_setAdd_same. intros y Hy. apply Hall. by apply list_elem_of_further.
Qed.

Lemma fold_setAdd_elem (xs acc : list string) (x : string) :
  x ∈ acc ∨ x ∈ xs → x ∈ fold_left setAdd xs acc.
Proof.
  revert acc. induction xs as [|y xs IH]; intros acc [Hx|Hx]; simpl.
  - done.
  - by apply elem_of_nil in Hx.
  - apply IH. left. unfold setAdd. destruct (decide (y ∈ acc)); [done|].
    apply elem_of_app. by left.
  - apply elem_of_cons in Hx as [->|Hx]; [|apply IH; by right].
    apply IH. left. unfold setAdd. destruct (decide (y ∈ acc)); [done|].
    apply elem_of_app. right. apply list_elem_of_here.
Qed.

(** Two different elements make a set of size other than one. *)
Lemma newSet_two (xs : list string) (a b : string) :
  a ∈ xs → b ∈ xs → a ≠ b → length (newSet xs) ≠ 1.
Proof.
  intros Ha Hb Hab Hlen.
  assert (a ∈ newSet xs) as Ha' by (apply fold_setAdd_elem; by right).
  assert (b ∈ newSet xs) as Hb' by (apply fold_setAdd_elem; by right).
  destruct (newSet xs) as [|c [|d l]]; [done| |done].
  apply list_elem_of_singleton in Ha', Hb'. congruence.
Qed.

(** What [setFromFormatOption] leaves in the selector: always disabled;
    [mixed] for no item, the tag when all items share it, [mixed] when two
    items differ. *)
Lemma setFromFormatOption_states (p : Page) :
  disabled (fromFormat (setFromFormatOption p)) = true ∧
  originalFiles (setFromFormatOption p) = originalFiles p ∧
  (originalFiles p = [] → value (fromFormat (setFromFormatOption p)) = "mixed") ∧
  (∀ t, originalFiles p ≠ [] →
        (∀ item, item ∈ originalFiles p → format item = t) →
        value (fromFormat (setFromFormatOption p)) = t) ∧
  (∀ a b, a ∈ originalFiles p → b ∈ originalFiles p → format a ≠ format b →
          value (fromFormat (setFromFormatOption p)) = "mixed").
Proof.
  unfold setFromFormatOption. split_and!.
  - destruct (length (originalFiles p) =? 0); [done|].
    by destruct (length (newSet (format <$> originalFiles p)) =? 1).
  - destruct (length (originalFiles p) =? 0); [done|].
    by destruct (length (newSet (format <$> originalFiles p)) =? 1).
  - by intros ->.
  - intros t Hne Hall.
    destruct (originalFiles p) as [|i l] eqn:E; [done|].
    change (length (i :: l) =? 0) with false. cbv iota.
    rewrite (newSet_same t); [done|done|].
    intros x (item & -> & Hitem)%list_elem_of_fmap. by apply Hall.
  - intros a b Ha Hb Hab.
    destruct (length (originalFiles p) =? 0); [done|].
    destruct (length (newSet (format <$> originalFiles p)) =? 1) eqn:Hlen; [|done].
    apply Nat.eqb_eq in Hlen. exfalso.
    apply (newSet_two (format <$> originalFiles p) (format a) (format b));
      [by apply list_elem_of_fmap_2..|done|done].
Qed.

Lemma fold_appendErrorResult (errs : list string) (p : Page) :
  originalFiles (fold_left (fun p err => appendErrorResult err p) errs p) = originalFiles p ∧
  fromFormat (fold_left (fun p err => appendErrorResult err p) errs p) = fromFormat p.
Proof.
  revert p. induction errs as [|e errs IH]; intros p; [done|]. simpl.
  destruct (IH (appendErrorResult e p)) as [-> ->]. done.
Qed.

(** After the [change] handler has run on a selection of at least one
    file, the selector is in the state [setFromFormatOption] gives for the
    items that were accepted. *)
Lemma onInputChange_selector
    (loadAsync : list Byte.byte → option (list ZipEntry)) (files : list File) (p : Page) :
  files ≠ [] →
  let q := onInputChange loadAsync files p in
  disabled (fromFormat q) = true ∧
  (originalFiles q = [] → value (fromFormat q) = "mixed") ∧
  (∀ t, originalFiles q ≠ [] →
        (∀ item, item ∈ originalFiles q → format item = t) →
        value (fromFormat q) = t) ∧
  (∀ a b, a ∈ originalFiles q → b ∈ originalFiles q → format a ≠ format b →
          value (fromFormat q) = "mixed").
Proof.
  intros Hne. destruct files as [|file files]; [done|].
  unfold onInputChange. change (length (file :: files) =? 0) with false. cbv iota zeta.
  set (p1 := fold_left (handleFile loadAsync) (file :: files) _).
  destruct (fold_appendErrorResult (errorResults (setFromFormatOption p1))
              (setFromFormatOption p1)) as [Ho Hf].
  destruct (setFromFormatOption_states p1) as (Hd & Ho' & Hempty & Hsame & Hmixed).
  set (p3 := fold_left _ (errorResults (setFromFormatOption p1)) (setFromFormatOption p1)) in *.
  assert (∀ b1 b2, originalFiles (set_downloadAllBtn_disabled b1 (set_convertBtn_disabled b2 p3))
                   = originalFiles p1) as Ho3 by (intros; simpl; congruence).
  assert (∀ b1 b2, fromFormat (set_downloadAllBtn_disabled b1 (set_convertBtn_disabled b2 p3))
                   = fromFormat (setFromFormatOption p1)) as Hf3 by (intros; simpl; congruence).
  destruct (length (originalFiles p3) =? 0); rewrite Ho3, Hf3; by split_and!.
Qed.

(** The selector on the selections of the specification's examples: an
    archive of a png, a jpeg and a webp entry is [mixed], two png files
    are [png], and a selection with nothing accepted is [mixed]; in each
    case the selector is disabled. *)
Example onInputChange_selector_samples :
  fromFormat (onInputChange Sample.loadAsync [mkFile "pics.zip" "" [Byte.x50]] Sample.page0)
    = mkSelect "mixed" true ∧
  fromFormat (onInputChange Sample.loadAsync
                [mkFile "a.png" "image/png" [Byte.x01]; mkFile "b.png" "image/png" [Byte.x02]]
                Sample.page0)
    = mkSelect "png" true ∧
  fromFormat (onInputChange Sample.loadAsync [mkFile "notes.txt" "text/plain" []] Sample.page0)
    = mkSelect "mixed" true.
Proof. split_and!; reflexivity. Qed.

(** C7: the selector is left as it was by a [change] event without files:
    after a selection of one png file, which locks the selector to [png],
    an empty selection empties [originalFiles] and returns before
    [setFromFormatOption], so the selector is still locked to [png] and
    not in the placeholder state. *)
Theorem selector_stale_after_empty_selection :
  let p1 := onInputChange Sample.loadAsync [mkFile "a.png" "image/png" [Byte.x01]] Sample.page0 in
  let p2 := onInputChange Sample.loadAsync [] p1 in
  fromFormat p1 = mkSelect "png" true ∧
  originalFiles p2 = [] ∧
  fromFormat p2 = mkSelect "png" true ∧
  fromFormat (setFromFormatOption p2) = mkSelect "mixed" true.
Proof. split_and!; reflexivity. Qed.

(** * Facts about the conversion run *)

Section Conversion.

Context {DataURL Image : Type}.
Variable readAsDataURL : Blob → option DataURL.
Variables width height : Image → N.
Variable loadImage : DataURL → option Image.
Variable toBlob : Canvas Image → string → option Blob.
Variable createObjectURL : Blob → string.

Local Abbreviation convert := (convertImageFile readAsDataURL width height loadImage toBlob).
Local Abbreviation step :=
  (convertStep readAsDataURL width height loadImage toBlob createObjectURL).
Local Abbreviation click :=
  (onConvertClick readAsDataURL width height loadImage toBlob createObjectURL).

(** What the run records for one item: a result when the conversion gives
    a blob, and the node appended to the output container either way. *)
Local Abbreviation resultOf toMime toExt :=
  (fun item : SourceItem =>
     (fun b => mkResult b (changeExtension (originalName item) toExt))
       <$> convert (blob item) toMime).
Local Abbreviation nodeOf toMime toExt :=
  (fun item : SourceItem =>
     match convert (blob item) toMime with
     | Some b => ImageResult (createObjectURL b) (changeExtension (originalName item) toExt)
     | None => ErrorResult (originalName item +:+ " の変換に失敗しました。")
     end).

(** The loop visits every item: each adds its node, and its result if it
    has one, after those of the items before it. *)
Lemma convert_loop (toMime toExt : string) (items : list SourceItem) (p : Page) :
  let q := fold_left (step toMime toExt) items p in
  originalFiles q = originalFiles p ∧
  convertedResults q = convertedResults p ++ omap (resultOf toMime toExt) items ∧
  outputContainer q = outputContainer p ++ (nodeOf toMime toExt <$> items).
Proof.
  revert p. induction items as [|item items IH]; intros p; simpl.
  - by rewrite !app_nil_r.
  - destruct (IH (step toMime toExt p item)) as (-> & -> & ->).
    unfold convertStep. destruct (convert (blob item) toMime) as [b|]; simpl.
    + by rewrite <- !app_assoc.
    + by rewrite <- app_assoc.
Qed.

(** The handler on a non-empty work list. *)
Lemma onConvertClick_run (p : Page) :
  originalFiles p ≠ [] →
  let toMime := mime (imageMimeMap (toFormat p)) in
  let toExt := ext (imageMimeMap (toFormat p)) in
  originalFiles (click p) = originalFiles p ∧
  convertedResults (click p) = omap (resultOf toMime toExt) (originalFiles p) ∧
  outputContainer (click p) = nodeOf toMime toExt <$> originalFiles p.
Proof.
  intros Hne. unfold onConvertClick.
  destruct (originalFiles p) as [|i l] eqn:E; [done|].
  change (length (i :: l) =? 0) with false. cbv iota zeta.
  set (p0 := set_convertedResults [] (set_outputContainer [] p)).
  assert (originalFiles p0 = i :: l) as -> by done.
  change (toFormat p0) with (toFormat p).
  destruct (convert_loop (mime (imageMimeMap (toFormat p))) (ext (imageMimeMap (toFormat p)))
              (i :: l) p0) as (Ho & Hc & Hn).
  set (q := fold_left _ (i :: l) p0) in *.
  assert (originalFiles p0 = i :: l) as Ho0 by done.
  destruct (0 <? length (convertedResults q)); simpl; rewrite Ho, Hc, Hn; by rewrite ?Ho0.
Qed.

(** The error messages among the nodes of a run are those of the items
    that did not convert, and the results those of the items that did. *)
Lemma run_counts (toMime toExt : string) (items : list SourceItem) :
  length (omap (resultOf toMime toExt) items)
    + length (errorMessages (nodeOf toMime toExt <$> items))
  = length items.
Proof.
  induction items as [|item items IH]; [done|]. unfold errorMessages in *. simpl.
  destruct (convert (blob item) toMime); simpl; [|rewrite Nat.add_succ_r]; f_equal; exact IH.
Qed.

End Conversion.

(** * The claims about the conversion run *)

Section ConversionClaims.

Context {DataURL Image : Type}.
Variable readAsDataURL : Blob → option DataURL.
Variables width height : Image → N.
Variable loadImage : DataURL → option Image.
Variable toBlob : Canvas Image → string → option Blob.
Variable createObjectURL : Blob → string.

Local Abbreviation convert := (convertImageFile readAsDataURL width height loadImage toBlob).
Local Abbreviation step :=
  (convertStep readAsDataURL width height loadImage toBlob createObjectURL).
Local Abbreviation click :=
  (onConvertClick readAsDataURL width height loadImage toBlob createObjectURL).

(** C1: the convert handler visits every item of a non-empty work list, in
    order: an item whose conversion gives a blob adds one result, an item
    whose conversion gives [null] adds one error message that starts with
    its original name, and the items after it are still converted; so
    results and messages together are as many as the items.  Of three
    items whose second does not convert, the first and the third are the
    two results, in that order, and the one message names the second. *)
Theorem conversion_isolates_failures (p : Page) :
  originalFiles p ≠ [] →
  let toMime := mime (imageMimeMap (toFormat p)) in
  let toExt := ext (imageMimeMap (toFormat p)) in
  originalFiles (click p) = originalFiles p ∧
  convertedResults (click p)
    = omap (fun item =>
              (fun b => mkResult b (changeExtension (originalName item) toExt))
                <$> convert (blob item) toMime) (originalFiles p) ∧
  errorMessages (outputContainer (click p))
    = omap (fun item =>
              match convert (blob item) toMime with
              | Some _ => None
              | None => Some (originalName item +:+ " の変換に失敗しました。")
              end) (originalFiles p) ∧
  length (convertedResults (click p)) + length (errorMessages (outputContainer (click p)))
    = length (originalFiles p) ∧
  (∀ i1 i2 i3 b1 b3,
     originalFiles p = [i1; i2; i3] →
     convert (blob i1) toMime = Some b1 →
     convert (blob i2) toMime = None →
     convert (blob i3) toMime = Some b3 →
     convertedResults (click p)
       = [ mkResult b1 (changeExtension (originalName i1) toExt);
           mkResult b3 (changeExtension (originalName i3) toExt) ] ∧
     errorMessages (outputContainer (click p))
       = [ originalName i2 +:+ " の変換に失敗しました。" ]).
Proof.
  intros Hne toMime toExt.
  destruct (onConvertClick_run readAsDataURL width height loadImage toBlob createObjectURL
              p Hne) as (Ho & Hc & Hn).
  fold toMime toExt in Hc, Hn.
  assert (errorMessages (outputContainer (click p))
          = omap (fun item =>
                    match convert (blob item) toMime with
                    | Some _ => None
                    | None => Some (originalName item +:+ " の変換に失敗しました。")
                    end) (originalFiles p)) as He.
  { rewrite Hn. unfold errorMessages. generalize (originalFiles p).
    induction l as [|item l IH]; [done|]. rewrite fmap_cons. simpl.
    destruct (convert (blob item) toMime); simpl; [exact IH|f_equal; exact IH]. }
  split_and!; [done|done|done| |].
  - rewrite Hc, Hn. apply run_counts.
  - intros i1 i2 i3 b1 b3 Hitems H1 H2 H3. rewrite He, Hc, Hitems. simpl.
    by rewrite H1, H2, H3.
Qed.

(** C8: the extension recorded for a target is [png] for [png], [jpg] for
    [jpeg] and [webp] for [webp]; [changeExtension] replaces the part after
    the last dot of a name by it, and appends it after a dot to a name
    without one; every result of a run carries the name of its item
    changed in this way.  [photo.png] converted to [jpeg] is recorded as
    [photo.jpg]. *)
Theorem result_filename_extension (p : Page) :
  (ext (imageMimeMap png) = "png" ∧ ext (imageMimeMap jpeg) = "jpg" ∧
   ext (imageMimeMap webp) = "webp") ∧
  (∀ base e newExt,
     hasChar "." e = false →
     changeExtension (base +:+ "." +:+ e) newExt = base +:+ "." +:+ newExt) ∧
  (∀ s newExt,
     hasChar "." s = false → changeExtension s newExt = s +:+ "." +:+ newExt) ∧
  (∀ item b,
     item ∈ originalFiles p →
     convert (blob item) (mime (imageMimeMap (toFormat p))) = Some b →
     mkResult b (changeExtension (originalName item) (ext (imageMimeMap (toFormat p))))
       ∈ convertedResults (click p)) ∧
  (∀ r,
     originalFiles p ≠ [] → r ∈ convertedResults (click p) →
     ∃ item b,
       item ∈ originalFiles p ∧
       convert (blob item) (mime (imageMimeMap (toFormat p))) = Some b ∧
       r = mkResult b (changeExtension (originalName item) (ext (imageMimeMap (toFormat p))))) ∧
  changeExtension "photo.png" (ext (imageMimeMap jpeg)) = "photo.jpg".
Proof.
  split; [done|]. split; [apply changeExtension_base_ext|].
  split; [apply changeExtension_nodot|]. split; [|split; [|done]].
  - intros item b Hitem Hb.
    assert (originalFiles p ≠ []) as Hne by (intros E; rewrite E in Hitem; by apply elem_of_nil in Hitem).
    destruct (onConvertClick_run readAsDataURL width height loadImage toBlob createObjectURL
                p Hne) as (_ & -> & _).
    apply list_elem_of_omap. exists item. split; [done|]. by rewrite Hb.
  - intros r Hne Hr.
    destruct (onConvertClick_run readAsDataURL width height loadImage toBlob createObjectURL
                p Hne) as (_ & Hc & _).
    rewrite Hc in Hr. apply list_elem_of_omap in Hr as (item & Hitem & Hres).
    apply fmap_Some in Hres as (b & Hb & ->). by exists item, b.
Qed.

End ConversionClaims.

(** C1 in the sample browser: of [a.png], [b.png] without bytes and
    [c.webp], converted to jpeg, the first and third are recorded and the
    second is reported. *)
Lemma conversion_isolates_failures_witness :
  let p := set_originalFiles
             [ Sample.item "a.png" [Byte.x01] "png";
               Sample.item "b.png" [] "png";
               Sample.item "c.webp" [Byte.x02; Byte.x03] "webp" ] Sample.page0 in
  let q := onConvertClick Sample.readAsDataURL Sample.width Sample.height
             Sample.loadImage Sample.toBlob Sample.createObjectURL p in
  convertedResults q
    = [ mkResult (mkBlob [Byte.x01] "image/jpeg") "a.jpg";
        mkResult (mkBlob [Byte.x02; Byte.x03] "image/jpeg") "c.jpg" ] ∧
  errorMessages (outputContainer q) = [ "b.png の変換に失敗しました。" ].
Proof.
  intros p q.
  assert (originalFiles p ≠ []) as Hne by discriminate.
  destruct (conversion_isolates_failures Sample.readAsDataURL Sample.width Sample.height
              Sample.loadImage Sample.toBlob Sample.createObjectURL p Hne)
    as (_ & _ & _ & _ & Hthree).
  exact (Hthree _ _ _ _ _ eq_refl eq_refl eq_refl eq_refl).
Defined.

(** C8 in the sample browser: the result of [photo.png] converted to jpeg
    is named [photo.jpg]. *)
Lemma result_filename_extension_witness :
  let p := set_originalFiles [Sample.item "photo.png" [Byte.x01] "png"] Sample.page0 in
  mkResult (mkBlob [Byte.x01] "image/jpeg") "photo.jpg"
    ∈ convertedResults
        (onConvertClick Sample.readAsDataURL Sample.width Sample.height
           Sample.loadImage Sample.toBlob Sample.createObjectURL p).
Proof.
  intros p.
  destruct (result_filename_extension Sample.readAsDataURL Sample.width Sample.height
              Sample.loadImage Sample.toBlob Sample.createObjectURL p)
    as (_ & _ & _ & Hin & _).
  exact (Hin (Sample.item "photo.png" [Byte.x01] "png") (mkBlob [Byte.x01] "image/jpeg")
           (list_elem_of_here _ _) eq_refl).
Defined.

(** * Further facts about the normalizer *)

Lemma extendRun_nil (p : Page) : extendRun [] [] p = p.
Proof. destruct p. unfold extendRun. simpl. by rewrite !app_nil_r. Qed.

Lemma extendRun_extendRun (items1 items2 : list SourceItem) (errs1 errs2 : list string)
    (p : Page) :
  extendRun items2 errs2 (extendRun items1 errs1 p)
    = extendRun (items1 ++ items2) (errs1 ++ errs2) p.
Proof. destruct p. unfold extendRun. simpl. by rewrite !app_assoc. Qed.

Lemma pushOriginal_extendRun (item : SourceItem) (p : Page) :
  pushOriginal item p = extendRun [item] [] p.
Proof. destruct p. unfold extendRun, pushOriginal. simpl. by rewrite app_nil_r. Qed.

Lemma pushError_extendRun (msg : string) (p : Page) :
  pushError msg p = extendRun [] [msg] p.
Proof. destruct p. unfold extendRun, pushError. simpl. by rewrite app_nil_r. Qed.

(** A supported extension has a content type. *)
Lemma supported_extension_cases (x : string) :
  x ∈ supportedExtensions →
  (x = "png" ∨ x = "jpg" ∨ x = "jpeg" ∨ x = "webp").
Proof.
  unfold supportedExtensions. rewrite !elem_of_cons, elem_of_nil. tauto.
Qed.

(** What a loose file adds, whatever the page: one item or one message. *)
Lemma handleRegularFile_delta (file : File) :
  ∃ items errs,
    (∀ p, handleRegularFile file p = extendRun items errs p) ∧
    Forall (fun item => tagOf item ∈ formatTags) items ∧
    length items + length errs = 1.
Proof.
  unfold handleRegularFile. destruct (isImageFileSupported file).
  - destruct (decide (type file = "image/png")) as [Hpng|].
    { exists [mkItem (fileBlob file) (name file) "png"], [].
      split_and!; [intros p; apply pushOriginal_extendRun| |done].
      apply Forall_singleton. unfold tagOf, formatTags. simpl. rewrite Hpng.
      apply list_elem_of_here. }
    destruct (decide (type file = "image/jpeg")) as [Hjpeg|].
    { exists [mkItem (fileBlob file) (name file) "jpeg"], [].
      split_and!; [intros p; apply pushOriginal_extendRun| |done].
      apply Forall_singleton. unfold tagOf, formatTags. simpl. rewrite Hjpeg.
      apply list_elem_of_further, list_elem_of_here. }
    destruct (decide (type file = "image/webp")) as [Hwebp|].
    { exists [mkItem (fileBlob file) (name file) "webp"], [].
      split_and!; [intros p; apply pushOriginal_extendRun| |done].
      apply Forall_singleton. unfold tagOf, formatTags. simpl. rewrite Hwebp.
      do 2 apply list_elem_of_further. apply list_elem_of_here. }
    exists [], [name file +:+ " は非対応の画像形式です。"].
    split_and!; [intros p; apply pushError_extendRun|constructor|done].
  - destruct (decide (toLowerCase (getExtension (name file)) = "zip")).
    + exists [], [name file +:+ " のZIP処理中に問題がありました。"].
      split_and!; [intros p; apply pushError_extendRun|constructor|done].
    + exists [], [name file +:+ " は非対応の拡張子です。"].
      split_and!; [intros p; apply pushError_extendRun|constructor|done].
Qed.

(** What the loop over the entries of an archive adds, whatever the page:
    items with a supported tag, named after entries and in their order,
    and unsupported-extension messages for entries; when every entry can
    be read the loop does not throw and each entry that is not a directory
    gives one item or one message. *)
Lemma zipEntriesLoop_delta (entries : list ZipEntry) :
  ∃ items errs threw,
    (∀ p, zipEntriesLoop entries p = (extendRun items errs p, threw)) ∧
    Forall (fun item => tagOf item ∈ formatTags) items ∧
    (originalName <$> items) `sublist_of` (entryName <$> entries) ∧
    Forall (fun msg => ∃ e, e ∈ entries ∧ dir e = false ∧
                           msg = entryName e +:+ " は非対応の拡張子です。") errs ∧
    (Forall (fun e => dir e = false → is_Some (entryData e)) entries →
       threw = false ∧
       length items + length errs = length (filter (fun e => dir e = false) entries)).
Proof.
  induction entries as [|e entries IH].
  - exists [], [], false. split_and!; try done.
    intros p. by rewrite extendRun_nil.
  - destruct IH as (items & errs & threw & Hloop & Htags & Hsub & Herrs & Hall).
    assert (Forall (fun msg => ∃ e', e' ∈ e :: entries ∧ dir e' = false ∧
                                 msg = entryName e' +:+ " は非対応の拡張子です。") errs)
      as Herrs'.
    { eapply Forall_impl; [exact Herrs|]. intros msg (e' & He' & Hd & ->).
      exists e'. split_and!; [by apply list_elem_of_further|done|done]. }
    destruct (dir e) eqn:Hdir.
    { exists items, errs, threw. split_and!; [|done| |done|].
      - intros p. simpl. by rewrite Hdir.
      - rewrite fmap_cons. by apply sublist_cons.
      - intros [_ Hrest]%Forall_cons. rewrite filter_cons_False by congruence. auto. }
    remember (toLowerCase (getExtension (entryName e))) as x eqn:Hx. symmetry in Hx.
    destruct (bool_decide (x ∈ supportedExtensions)) eqn:Hsup.
    2:{ exists items, ((entryName e +:+ " は非対応の拡張子です。") :: errs), threw.
        split_and!; [|done| | |].
        - intros p. rewrite (zipEntriesLoop_step e entries p x Hdir Hx), Hsup. simpl.
          by rewrite Hloop, pushError_extendRun, extendRun_extendRun.
        - rewrite fmap_cons. by apply sublist_cons.
        - apply Forall_cons. split; [|done]. exists e.
          split_and!; [apply list_elem_of_here|done|done].
        - intros [_ Hrest]%Forall_cons. rewrite filter_cons_True by done.
          destruct (Hall Hrest) as [-> Hlen]. split; [done|]. simpl. lia. }
    apply bool_decide_eq_true in Hsup.
    assert (∃ tag ty, (tag, ty) ∈ formatTags ∧
              ∀ p, zipEntriesLoop (e :: entries) p =
                match entryData e with
                | None => (p, true)
                | Some fileData =>
                    zipEntriesLoop entries
                      (pushOriginal (mkItem (mkBlob fileData ty) (entryName e) tag) p)
                end) as (tag & ty & Htag & Hstep).
    { apply supported_extension_cases in Hsup as [-> | [-> | [-> | ->]]].
      - exists "png", "image/png". split; [apply list_elem_of_here|].
        intros p. by rewrite (zipEntriesLoop_step e entries p _ Hdir Hx).
      - exists "jpeg", "image/jpeg". split; [apply list_elem_of_further, list_elem_of_here|].
        intros p. by rewrite (zipEntriesLoop_step e entries p _ Hdir Hx).
      - exists "jpeg", "image/jpeg". split; [apply list_elem_of_further, list_elem_of_here|].
        intros p. by rewrite (zipEntriesLoop_step e entries p _ Hdir Hx).
      - exists "webp", "image/webp".
        split; [do 2 apply list_elem_of_further; apply list_elem_of_here|].
        intros p. by rewrite (zipEntriesLoop_step e entries p _ Hdir Hx). }
    destruct (entryData e) as [fileData|] eqn:Hdata.
    + exists (mkItem (mkBlob fileData ty) (entryName e) tag :: items), errs, threw.
      split_and!; [| | |done|].
      * intros p. by rewrite Hstep, Hloop, pushOriginal_extendRun, extendRun_extendRun.
      * apply Forall_cons. split; [exact Htag|done].
      * rewrite !fmap_cons. by apply sublist_skip.
      * intros [_ Hrest]%Forall_cons. rewrite filter_cons_True by done.
        destruct (Hall Hrest) as [-> Hlen]. split; [done|]. simpl. lia.
    + exists [], [], true. split_and!; [|constructor|apply sublist_nil_l|constructor|].
      * intros p. by rewrite Hstep, extendRun_nil.
      * intros [Hd _]%Forall_cons. destruct (Hd Hdir) as [d Hd']. congruence.
Qed.

(** What an archive adds, whatever the page. *)
Lemma handleZipFile_delta
    (loadAsync : list Byte.byte → option (list ZipEntry)) (file : File) :
  ∃ items errs,
    (∀ p, handleZipFile loadAsync file p = extendRun items errs p) ∧
    Forall (fun item => tagOf item ∈ formatTags) items.
Proof.
  unfold handleZipFile. destruct (loadAsync (content file)) as [entries|].
  - destruct (zipEntriesLoop_delta entries)
      as (items & errs & threw & Hloop & Htags & _).
    destruct threw.
    + exists items, (errs ++ [name file +:+ " の解凍に失敗しました。"]). split; [|done].
      intros p. rewrite Hloop, pushError_extendRun, extendRun_extendRun.
      by rewrite app_nil_r.
    + exists items, errs. split; [|done]. intros p. by rewrite Hloop.
  - exists [], [name file +:+ " の解凍に失敗しました。"]. split; [|constructor].
    intros p. apply pushError_extendRun.
Qed.

(** What a whole selection adds, whatever the page; a selection of loose
    files adds one item or one message per file. *)
Lemma normalize_delta
    (loadAsync : list Byte.byte → option (list ZipEntry)) (files : list File) :
  ∃ items errs,
    (∀ p, fold_left (handleFile loadAsync) files p = extendRun items errs p) ∧
    Forall (fun item => tagOf item ∈ formatTags) items ∧
    (Forall (fun file => isZipFile file = false) files →
       length items + length errs = length files).
Proof.
  induction files as [|file files IH] using rev_ind.
  - exists [], []. split_and!; [|constructor|done]. intros p. by rewrite extendRun_nil.
  - destruct IH as (items & errs & Hfold & Htags & Hlen).
    assert (∃ items' errs',
              (∀ p, handleFile loadAsync p file = extendRun items' errs' p) ∧
              Forall (fun item => tagOf item ∈ formatTags) items' ∧
              (isZipFile file = false → length items' + length errs' = 1))
      as (items' & errs' & Hfile & Htags' & Hone).
    { unfold handleFile. destruct (isZipFile file).
      - destruct (handleZipFile_delta loadAsync file) as (items' & errs' & H & Ht).
        by exists items', errs'.
      - destruct (handleRegularFile_delta file) as (items' & errs' & H & Ht & Hl).
        by exists items', errs'. }
    exists (items ++ items'), (errs ++ errs'). split_and!.
    + intros p. by rewrite fold_left_app, Hfold; simpl; rewrite Hfile, extendRun_extendRun.
    + by apply Forall_app.
    + intros [Hfiles [Hfile' _]%Forall_cons]%Forall_app.
      rewrite !length_app. simpl. specialize (Hlen Hfiles). specialize (Hone Hfile'). lia.
Qed.

(** Evaluates the field updates of a page given by its fields, innermost
    first. *)
Ltac page_simpl :=
  cbv [extendRun clearResults pushOriginal pushError pushConverted appendResult
       appendErrorResult set_downloadAllBtn_disabled set_convertBtn_disabled
       set_outputContainer set_fromFormat set_convertedResults set_errorResults
       set_originalFiles originalFiles errorResults convertedResults fromFormat toFormat
       convertBtn_disabled downloadAllBtn_disabled outputContainer];
  simpl.

Lemma fold_appendErrorResult_nodes (errs : list string) (p : Page) :
  fold_left (fun p err => appendErrorResult err p) errs p
    = set_outputContainer (outputContainer p ++ (ErrorResult <$> errs)) p.
Proof.
  revert p. induction errs as [|err errs IH]; intros p; simpl.
  - destruct p. unfold set_outputContainer. simpl. by rewrite app_nil_r.
  - rewrite IH. destruct p. unfold set_outputContainer, appendErrorResult. simpl.
    by rewrite <- app_assoc.
Qed.

Lemma setFromFormatOption_only_selector (p : Page) :
  setFromFormatOption p = set_fromFormat (fromFormat (setFromFormatOption p)) p.
Proof.
  unfold setFromFormatOption. destruct (length (originalFiles p) =? 0); [done|].
  by destruct (length (newSet (format <$> originalFiles p)) =? 1).
Qed.

(** The selector depends on the accepted items alone. *)
Lemma setFromFormatOption_selector (p p' : Page) :
  originalFiles p = originalFiles p' →
  fromFormat (setFromFormatOption p) = fromFormat (setFromFormatOption p').
Proof.
  intros Ho. unfold setFromFormatOption. rewrite Ho.
  destruct (length (originalFiles p') =? 0); [done|].
  by destruct (length (newSet (format <$> originalFiles p')) =? 1).
Qed.

(** The page after the [change] handler has run on a selection of at
    least one file, in terms of what the selection adds. *)
Lemma onInputChange_fields
    (loadAsync : list Byte.byte → option (list ZipEntry)) (files : list File)
    (items : list SourceItem) (errs : list string) :
  files ≠ [] →
  (∀ p, fold_left (handleFile loadAsync) files p = extendRun items errs p) →
  ∀ p, onInputChange loadAsync files p =
         mkPage items errs []
           (fromFormat (setFromFormatOption (set_originalFiles items p)))
           (toFormat p) (length items =? 0) true (ErrorResult <$> errs).
Proof.
  intros Hne Hfold p. destruct files as [|file files]; [done|].
  unfold onInputChange. change (length (file :: files) =? 0) with false. cbv iota zeta.
  rewrite Hfold, setFromFormatOption_only_selector, fold_appendErrorResult_nodes.
  match goal with
  | |- context [fromFormat (setFromFormatOption (extendRun ?a ?b ?c))] =>
      rewrite (setFromFormatOption_selector (extendRun a b c) (set_originalFiles items p))
        by (by destruct p)
  end.
  destruct p as [o e c f t cb db oc].
  match goal with
  | |- (if ?c then _ else _) = _ => change c with (length items =? 0)
  end.
  by destruct (length items =? 0).
Qed.


(** * Further properties of the normalizer *)

(** X1: whatever is selected, every item the [change] handler leaves in
    [originalFiles] carries one of the tags png, jpeg, webp, and its blob
    has the content type of that tag. *)
Theorem normalizer_accepts_supported_formats
    (loadAsync : list Byte.byte → option (list ZipEntry)) (files : list File) (p : Page) :
  Forall (fun item => tagOf item ∈ formatTags)
         (originalFiles (onInputChange loadAsync files p)).
Proof.
  destruct files as [|file files].
  - unfold onInputChange. simpl. constructor.
  - destruct (normalize_delta loadAsync (file :: files)) as (items & errs & Hfold & Htags & _).
    by rewrite (onInputChange_fields loadAsync (file :: files) items errs).
Qed.

(** X2: a [change] event starts a new run: the accepted items, the
    messages, the nodes shown and the state of the convert button after it
    are the same whatever the page held before, no result of an earlier
    conversion is kept, and the download button is disabled. *)
Theorem onInputChange_forgets_previous_run
    (loadAsync : list Byte.byte → option (list ZipEntry)) (files : list File) (p p' : Page) :
  let q := onInputChange loadAsync files p in
  let q' := onInputChange loadAsync files p' in
  originalFiles q = originalFiles q' ∧
  errorResults q = errorResults q' ∧
  outputContainer q = outputContainer q' ∧
  convertBtn_disabled q = convertBtn_disabled q' ∧
  convertedResults q = [] ∧
  downloadAllBtn_disabled q = true.
Proof.
  destruct files as [|file files].
  - by destruct p, p'.
  - destruct (normalize_delta loadAsync (file :: files)) as (items & errs & Hfold & _).
    intros q q'. unfold q, q'.
    by rewrite !(onInputChange_fields loadAsync (file :: files) items errs).
Qed.

(** X3: after a [change] event the output container shows exactly the
    messages of [errorResults], in order, and the convert button is
    enabled exactly when at least one item was accepted. *)
Theorem onInputChange_display_and_buttons
    (loadAsync : list Byte.byte → option (list ZipEntry)) (files : list File) (p : Page) :
  let q := onInputChange loadAsync files p in
  outputContainer q = ErrorResult <$> errorResults q ∧
  convertBtn_disabled q = bool_decide (originalFiles q = []).
Proof.
  destruct files as [|file files].
  - by destruct p.
  - destruct (normalize_delta loadAsync (file :: files)) as (items & errs & Hfold & _).
    intros q. unfold q.
    rewrite !(onInputChange_fields loadAsync (file :: files) items errs) by done.
    simpl. split; [done|]. by destruct items.
Qed.

(** X4: in a selection of loose files no file is dropped silently: the
    accepted items and the messages together are as many as the files. *)
Theorem loose_files_accounted
    (loadAsync : list Byte.byte → option (list ZipEntry)) (files : list File) (p : Page) :
  Forall (fun file => isZipFile file = false) files →
  let q := onInputChange loadAsync files p in
  length (originalFiles q) + length (errorResults q) = length files.
Proof.
  intros Hloose. destruct files as [|file files].
  - by destruct p.
  - destruct (normalize_delta loadAsync (file :: files)) as (items & errs & Hfold & _ & Hlen).
    intros q. unfold q.
    rewrite !(onInputChange_fields loadAsync (file :: files) items errs) by done.
    by apply Hlen.
Qed.

(** X4 on a png, a text file and a gif. *)
Lemma loose_files_accounted_witness :
  let q := onInputChange Sample.loadAsync
             [ mkFile "a.png" "image/png" [Byte.x01];
               mkFile "notes.txt" "text/plain" [];
               mkFile "c.gif" "image/gif" [Byte.x02] ] Sample.page0 in
  length (originalFiles q) + length (errorResults q) = 3.
Proof.
  apply (loose_files_accounted Sample.loadAsync
           [ mkFile "a.png" "image/png" [Byte.x01];
             mkFile "notes.txt" "text/plain" [];
             mkFile "c.gif" "image/gif" [Byte.x02] ] Sample.page0).
  repeat constructor.
Defined.

(** X5: an archive that opens and whose entries can all be read is
    accounted for entry by entry: every entry that is not a directory
    gives exactly one accepted item or one message, each message is the
    unsupported-extension message of an entry (the cannot-process message
    of line 89 is never produced), and no archive-level failure is
    reported. *)
Theorem archive_entries_accounted
    (loadAsync : list Byte.byte → option (list ZipEntry)) (file : File)
    (entries : list ZipEntry) (p : Page) :
  loadAsync (content file) = Some entries →
  Forall (fun e => dir e = false → is_Some (entryData e)) entries →
  ∃ items errs,
    originalFiles (handleZipFile loadAsync file p) = originalFiles p ++ items ∧
    errorResults (handleZipFile loadAsync file p) = errorResults p ++ errs ∧
    length items + length errs = length (filter (fun e => dir e = false) entries) ∧
    Forall (fun msg => ∃ e, e ∈ entries ∧ dir e = false ∧
                           msg = entryName e +:+ " は非対応の拡張子です。") errs.
Proof.
  intros Hopen Hread. unfold handleZipFile. rewrite Hopen.
  destruct (zipEntriesLoop_delta entries) as (items & errs & threw & Hloop & _ & _ & Herrs & Hall).
  destruct (Hall Hread) as [-> Hlen]. rewrite Hloop.
  exists items, errs. by destruct p.
Qed.

(** X5 on the archive of the sample browser. *)
Lemma archive_entries_accounted_witness :
  ∃ items errs,
    originalFiles (handleZipFile Sample.loadAsync (mkFile "pics.zip" "" [Byte.x50]) Sample.page0)
      = originalFiles Sample.page0 ++ items ∧
    errorResults (handleZipFile Sample.loadAsync (mkFile "pics.zip" "" [Byte.x50]) Sample.page0)
      = errorResults Sample.page0 ++ errs ∧
    length items + length errs
      = length (filter (fun e => dir e = false) Sample.entries) ∧
    Forall (fun msg => ∃ e, e ∈ Sample.entries ∧ dir e = false ∧
                           msg = entryName e +:+ " は非対応の拡張子です。") errs.
Proof.
  apply (archive_entries_accounted Sample.loadAsync (mkFile "pics.zip" "" [Byte.x50])
           Sample.entries Sample.page0 eq_refl).
  unfold Sample.entries.
  repeat (apply Forall_cons; split; [simpl; intros; by (discriminate || eexists)|]).
  apply Forall_nil_2.
Defined.

(** X6: the items accepted from an archive are named after its entries
    and keep the order of the archive, whether or not the loop ends by a
    failure. *)
Theorem archive_items_in_archive_order (entries : list ZipEntry) (p : Page) :
  ∃ items,
    originalFiles (fst (zipEntriesLoop entries p)) = originalFiles p ++ items ∧
    (originalName <$> items) `sublist_of` (entryName <$> entries).
Proof.
  destruct (zipEntriesLoop_delta entries) as (items & errs & threw & Hloop & _ & Hsub & _).
  exists items. rewrite Hloop. by destruct p.
Qed.



(** X8: archive detection comes before the declared type: a file whose
    extension is [zip] in any case, or whose declared type is
    [application/zip], goes to the archive reader whatever else it
    declares, so a file named [x.zip] that declares [image/png] and does
    not open as an archive is not accepted as an image. *)
Theorem archive_detection_precedes_type
    (loadAsync : list Byte.byte → option (list ZipEntry)) (file : File) (p : Page) :
  toLowerCase (getExtension (name file)) = "zip" ∨ type file = "application/zip" →
  handleFile loadAsync p file = handleZipFile loadAsync file p ∧
  (loadAsync (content file) = None →
     originalFiles (handleFile loadAsync p file) = originalFiles p ∧
     errorResults (handleFile loadAsync p file)
       = errorResults p ++ [name file +:+ " の解凍に失敗しました。"]).
Proof.
  intros Hzip.
  assert (isZipFile file = true) as Harchive.
  { destruct Hzip as [Hext|Htype]; [by apply zip_extension_is_archive|].
    unfold isZipFile. rewrite Htype. apply orb_true_r. }
  unfold handleFile. rewrite Harchive. split; [done|].
  intros Hopen. unfold handleZipFile. by rewrite Hopen.
Qed.

(** X8 on [photo.ZIP] declared [image/png]. *)
Lemma archive_detection_precedes_type_witness :
  originalFiles (handleFile Sample.loadAsync Sample.page0 (mkFile "photo.ZIP" "image/png" []))
    = originalFiles Sample.page0 ∧
  errorResults (handleFile Sample.loadAsync Sample.page0 (mkFile "photo.ZIP" "image/png" []))
    = errorResults Sample.page0 ++ ["photo.ZIP" +:+ " の解凍に失敗しました。"].
Proof.
  destruct (archive_detection_precedes_type Sample.loadAsync
              (mkFile "photo.ZIP" "image/png" []) Sample.page0 (or_introl eq_refl))
    as [_ H].
  exact (H eq_refl).
Defined.

(** X9: after a [change] event with at least one file the selector is
    disabled and shows [mixed] or one of the tags png, jpeg, webp; when it
    shows a tag, every accepted item has that tag, and when all accepted
    items share a tag it shows that tag. *)
Theorem selector_after_selection
    (loadAsync : list Byte.byte → option (list ZipEntry)) (files : list File) (p : Page) :
  files ≠ [] →
  let q := onInputChange loadAsync files p in
  disabled (fromFormat q) = true ∧
  value (fromFormat q) ∈ ["mixed"; "png"; "jpeg"; "webp"] ∧
  (value (fromFormat q) ≠ "mixed" →
     Forall (fun item => format item = value (fromFormat q)) (originalFiles q)) ∧
  (∀ t, originalFiles q ≠ [] →
        Forall (fun item => format item = t) (originalFiles q) →
        value (fromFormat q) = t).
Proof.
  intros Hne q.
  destruct (onInputChange_selector loadAsync files p Hne) as (Hd & Hempty & Hsame & Hmixed).
  fold q in Hd, Hempty, Hsame, Hmixed.
  assert (Forall (fun item => tagOf item ∈ formatTags) (originalFiles q)) as Htags.
  { destruct (normalize_delta loadAsync files) as (items & errs & Hfold & Htags & _).
    unfold q. by rewrite (onInputChange_fields loadAsync files items errs). }
  assert (value (fromFormat q) = "mixed" ∨
          (originalFiles q ≠ [] ∧
           Forall (fun item => format item = value (fromFormat q)) (originalFiles q)))
    as Hcases.
  { destruct (originalFiles q) as [|i l] eqn:E; [left; by apply Hempty|].
    destruct (decide (Forall (fun item => format item = format i) (i :: l))) as [Hall|Hnot].
    - right. rewrite (Hsame (format i)); [done|done|].
      intros item Hitem. by apply (proj1 (Forall_forall _ _) Hall).
    - left. apply not_Forall_Exists in Hnot; [|apply _].
      apply Exists_exists in Hnot as (b & Hb & Hdiff).
      apply (Hmixed i b); [apply list_elem_of_here|done|]. simpl in Hdiff. congruence. }
  split_and!; [done| | |].
  - destruct Hcases as [->|[Hitems Hall]]; [apply list_elem_of_here|].
    destruct (originalFiles q) as [|i l]; [done|].
    apply Forall_cons in Hall as [Hi _]. apply Forall_cons in Htags as [Ht _].
    rewrite <- Hi. apply list_elem_of_further.
    unfold tagOf, formatTags in Ht. rewrite !elem_of_cons, elem_of_nil in Ht.
    rewrite !elem_of_cons. destruct Ht as [[= -> _]|[[= -> _]|[[= -> _]|[]]]]; auto.
  - intros Hvalue. by destruct Hcases as [?|[_ ?]].
  - intros t Hitems Hall. apply Hsame; [done|].
    intros item Hitem. by apply (proj1 (Forall_forall _ _) Hall).
Qed.

(** X9 on a selection of two png files. *)
Lemma selector_after_selection_witness :
  let q := onInputChange Sample.loadAsync
             [ mkFile "a.png" "image/png" [Byte.x01];
               mkFile "b.png" "image/png" [Byte.x02] ] Sample.page0 in
  disabled (fromFormat q) = true ∧
  value (fromFormat q) ∈ ["mixed"; "png"; "jpeg"; "webp"] ∧
  (value (fromFormat q) ≠ "mixed" →
     Forall (fun item => format item = value (fromFormat q)) (originalFiles q)) ∧
  (∀ t, originalFiles q ≠ [] →
        Forall (fun item => format item = t) (originalFiles q) →
        value (fromFormat q) = t).
Proof.
  apply (selector_after_selection Sample.loadAsync
           [ mkFile "a.png" "image/png" [Byte.x01];
             mkFile "b.png" "image/png" [Byte.x02] ] Sample.page0).
  discriminate.
Defined.

(** * Further facts about names *)

Lemma hasChar_app_sep (c : ascii) (s t : string) : hasChar c (s +:+ String c t) = true.
Proof.
  induction s as [|a s IH].
  - rewrite str_app_nil_l. simpl. by rewrite bool_decide_eq_true_2.
  - rewrite str_app_cons. simpl. rewrite IH. apply orb_true_r.
Qed.

(** What [changeExtension] returns always has a dot. *)
Lemma changeExtension_hasChar (n e : string) : hasChar "." (changeExtension n e) = true.
Proof.
  destruct (hasChar "." n) eqn:Hn.
  - destruct (last_sep_decompose _ _ Hn) as (base & x & -> & Hx).
    change (base +:+ String "." x) with (base +:+ "." +:+ x).
    rewrite changeExtension_base_ext by done. apply hasChar_app_sep.
  - rewrite changeExtension_nodot by done. apply hasChar_app_sep.
Qed.

Lemma getExtension_changeExtension (n e : string) :
  hasChar "." e = false → getExtension (changeExtension n e) = e.
Proof.
  intros He. destruct (hasChar "." n) eqn:Hn.
  - destruct (last_sep_decompose _ _ Hn) as (base & x & -> & Hx).
    change (base +:+ String "." x) with (base +:+ "." +:+ x).
    rewrite changeExtension_base_ext by done. by apply getExtension_base_ext.
  - rewrite changeExtension_nodot by done. by apply getExtension_base_ext.
Qed.

Lemma candidate_base_ext (b e : string) (n : nat) :
  candidate b e n = (b +:+ "(" +:+ pretty n +:+ ")") +:+ "." +:+ e.
Proof. unfold candidate. by rewrite !str_app_assoc. Qed.

(** A name with a dot keeps its extension through [getUniqueFilename]. *)
Lemma getUniqueFilename_extension (f u : string) (usedNames : gset string) :
  hasChar "." f = true →
  getUniqueFilename f usedNames = Some u →
  getExtension u = getExtension f.
Proof.
  intros Hf Hu. destruct (decide (f ∈ usedNames)) as [Hin|Hout].
  - destruct (last_sep_decompose _ _ Hf) as (base & e & -> & He).
    change (base +:+ String "." e) with (base +:+ "." +:+ e) in *.
    destruct (getUniqueFilename_collision base e usedNames He Hin) as (n & _ & Hget & _).
    rewrite Hget in Hu. injection Hu as <-.
    rewrite candidate_base_ext. by rewrite !getExtension_base_ext.
  - rewrite getUniqueFilename_unused in Hu by done. by injection Hu as <-.
Qed.

Lemma zipFile_names (u : string) (d : list Byte.byte) (zip : Zip) (n : string) :
  n ∈ (zipFile u d zip).*1 → n = u ∨ n ∈ zip.*1.
Proof.
  induction zip as [|[m e] zip IH]; simpl.
  - intros ->%list_elem_of_singleton. by left.
  - destruct (decide (m = u)); simpl.
    + intros [->|H]%elem_of_cons; [left; done|right; by apply list_elem_of_further].
    + intros [->|H]%elem_of_cons; [right; apply list_elem_of_here|].
      destruct (IH H); [by left|right; by apply list_elem_of_further].
Qed.

(** Every entry name of the archive is one the loop started with or what
    [getUniqueFilename] returned for a result. *)
Lemma packLoop_names (results : list Result) (usedNames usedNames' : gset string)
    (zip zip' : Zip) (n : string) :
  packLoop results usedNames zip = Some (usedNames', zip') →
  n ∈ zip'.*1 →
  n ∈ zip.*1 ∨ ∃ r used, r ∈ results ∧ getUniqueFilename (filename r) used = Some n.
Proof.
  revert usedNames zip. induction results as [|r results IH]; intros usedNames zip; simpl.
  - intros [= <- <-]. by left.
  - destruct (getUniqueFilename (filename r) usedNames) as [u|] eqn:Hu; [|done].
    intros Hloop Hn. destruct (IH _ _ Hloop Hn) as [Hz|(r' & used & Hr' & Hget)].
    + apply zipFile_names in Hz as [->|Hz]; [|by left].
      right. exists r, usedNames. split; [apply list_elem_of_here|done].
    + right. exists r', used. split; [by apply list_elem_of_further|done].
Qed.

(** Results with pairwise distinct names that are not in use are written
    under their own names. *)
Lemma packLoop_distinct (results : list Result) (usedNames : gset string) (zip : Zip) :
  (∀ x, x ∈ zip.*1 ↔ x ∈ usedNames) →
  NoDup (filename <$> results) →
  Forall (fun r => filename r ∉ usedNames) results →
  ∃ usedNames',
    packLoop results usedNames zip
      = Some (usedNames',
              zip ++ ((fun r => (filename r, blob_data (result_blob r))) <$> results)).
Proof.
  revert usedNames zip. induction results as [|r results IH]; intros usedNames zip Hset Hnd Hout.
  - exists usedNames. simpl. by rewrite app_nil_r.
  - rewrite fmap_cons in Hnd. apply NoDup_cons in Hnd as [Hr Hnd].
    apply Forall_cons in Hout as [Hfresh Hout]. simpl.
    rewrite getUniqueFilename_unused by done.
    rewrite zipFile_fresh by (by rewrite Hset).
    destruct (IH ({[filename r]} ∪ usedNames)
                 (zip ++ [(filename r, blob_data (result_blob r))])) as [used' Hloop].
    + intros x. rewrite fmap_app, elem_of_app, Hset. simpl.
      rewrite list_elem_of_singleton, elem_of_union, elem_of_singleton. tauto.
    + done.
    + apply Forall_forall. intros r' Hr'.
      rewrite elem_of_union, elem_of_singleton. intros [Heq|Hin].
      * apply Hr. rewrite <- Heq. by apply list_elem_of_fmap_2.
      * by apply (proj1 (Forall_forall _ _) Hout r').
    + exists used'. by rewrite Hloop, <- app_assoc.
Qed.

(** * Further properties of names and of the bulk download *)

(** X10: for a new extension without a dot, the extension of what
    [changeExtension] returns is the new extension, whatever the name, and
    changing the extension twice is changing it to the second one. *)
Theorem changeExtension_sets_extension (n e1 e2 : string) :
  hasChar "." e1 = false →
  getExtension (changeExtension n e1) = e1 ∧
  changeExtension (changeExtension n e1) e2 = changeExtension n e2.
Proof.
  intros He. split; [by apply getExtension_changeExtension|].
  destruct (hasChar "." n) eqn:Hn.
  - destruct (last_sep_decompose _ _ Hn) as (base & x & -> & Hx).
    change (base +:+ String "." x) with (base +:+ "." +:+ x).
    by rewrite !changeExtension_base_ext.
  - rewrite (changeExtension_nodot n e1), (changeExtension_nodot n e2) by done.
    by rewrite changeExtension_base_ext.
Qed.

(** X10 on [archive.tar.gz]. *)
Lemma changeExtension_sets_extension_witness :
  getExtension (changeExtension "archive.tar.gz" "jpg") = "jpg" ∧
  changeExtension (changeExtension "archive.tar.gz" "jpg") "webp"
    = changeExtension "archive.tar.gz" "webp".
Proof. apply (changeExtension_sets_extension "archive.tar.gz" "jpg" "webp"). reflexivity. Defined.

(** X11: [getUniqueFilename] returns the name it was given exactly when
    that name is not in use. *)
Theorem getUniqueFilename_keeps_exactly_unused (f : string) (usedNames : gset string) :
  getUniqueFilename f usedNames = Some f ↔ f ∉ usedNames.
Proof.
  split; [apply getUniqueFilename_fresh|apply getUniqueFilename_unused].
Qed.

(** X12: results whose names are pairwise distinct are packed under
    exactly these names, each with the bytes of its own blob, in result
    order: no name is changed unless it collides. *)
Theorem pack_keeps_distinct_names (results : list Result) :
  results ≠ [] →
  NoDup (filename <$> results) →
  pack results = Some ((fun r => (filename r, blob_data (result_blob r))) <$> results).
Proof.
  intros Hne Hnd. unfold pack. destruct results as [|r results]; [done|].
  change (length (r :: results) =? 0) with false. cbv iota.
  destruct (packLoop_distinct (r :: results) ∅ []) as [used' ->]; [|done| |done].
  - intros x. simpl. rewrite elem_of_nil. by rewrite elem_of_empty.
  - apply Forall_forall. intros r' _. apply not_elem_of_empty.
Qed.

(** X12 on two results of different names. *)
Lemma pack_keeps_distinct_names_witness :
  pack [ mkResult (mkBlob [Byte.x01] "image/jpeg") "a.jpg";
         mkResult (mkBlob [Byte.x02] "image/jpeg") "b.jpg" ]
    = Some [ ("a.jpg", [Byte.x01]); ("b.jpg", [Byte.x02]) ].
Proof.
  apply (pack_keeps_distinct_names
           [ mkResult (mkBlob [Byte.x01] "image/jpeg") "a.jpg";
             mkResult (mkBlob [Byte.x02] "image/jpeg") "b.jpg" ]).
  - discriminate.
  - simpl. apply NoDup_cons. split.
    + intros H%list_elem_of_singleton. discriminate.
    + apply NoDup_singleton.
Defined.

(** X13: packing keeps extensions: when every result name has a dot, as
    the names [changeExtension] makes have, every name under which the
    download handler writes a file into the archive has the extension of
    a result name, also after renaming. *)
Theorem pack_keeps_extensions (results : list Result) (zip : Zip) :
  Forall (fun r => hasChar "." (filename r) = true) results →
  pack results = Some zip →
  Forall (fun n => ∃ r, r ∈ results ∧ getExtension n = getExtension (filename r)) zip.*1.
Proof.
  intros Hdots Hpack. unfold pack in Hpack.
  destruct (length results =? 0); [done|].
  destruct (packLoop results ∅ []) as [[used zip']|] eqn:Hloop; [|done].
  simpl in Hpack. injection Hpack as <-.
  apply Forall_forall. intros n Hn.
  destruct (packLoop_names _ _ _ _ _ _ Hloop Hn) as [Hnil|(r & used0 & Hr & Hget)].
  - simpl in Hnil. by apply elem_of_nil in Hnil.
  - exists r. split; [done|].
    apply (getUniqueFilename_extension _ _ used0); [|done].
    by apply (proj1 (Forall_forall _ _) Hdots r).
Qed.

(** X13 on two results named [a.jpg]. *)
Lemma pack_keeps_extensions_witness :
  Forall (fun n => ∃ r, r ∈ [ mkResult (mkBlob [] "image/jpeg") "a.jpg";
                              mkResult (mkBlob [] "image/jpeg") "a.jpg" ]
                        ∧ getExtension n = getExtension (filename r))
         [ "a.jpg"; "a(1).jpg" ].
Proof.
  apply (pack_keeps_extensions
           [ mkResult (mkBlob [] "image/jpeg") "a.jpg";
             mkResult (mkBlob [] "image/jpeg") "a.jpg" ]
           [ ("a.jpg", []); ("a(1).jpg", []) ]).
  - repeat constructor.
  - by vm_compute.
Defined.

(** * Further properties of the conversion run *)

Section ConversionRun.

Context {DataURL Image : Type}.
Variable readAsDataURL : Blob → option DataURL.
Variables width height : Image → N.
Variable loadImage : DataURL → option Image.
Variable toBlob : Canvas Image → string → option Blob.
Variable createObjectURL : Blob → string.

Local Abbreviation convert := (convertImageFile readAsDataURL width height loadImage toBlob).
Local Abbreviation step :=
  (convertStep readAsDataURL width height loadImage toBlob createObjectURL).
Local Abbreviation click :=
  (onConvertClick readAsDataURL width height loadImage toBlob createObjectURL).
Local Abbreviation resultsOf p :=
  (omap (fun item : SourceItem =>
           (fun b => mkResult b (changeExtension (originalName item)
                                   (ext (imageMimeMap (toFormat p)))))
             <$> convert (blob item) (mime (imageMimeMap (toFormat p))))
        (originalFiles p)).
Local Abbreviation nodesOf p :=
  ((fun item : SourceItem =>
      match convert (blob item) (mime (imageMimeMap (toFormat p))) with
      | Some b => ImageResult (createObjectURL b)
                    (changeExtension (originalName item) (ext (imageMimeMap (toFormat p))))
      | None => ErrorResult (originalName item +:+ " の変換に失敗しました。")
      end) <$> originalFiles p).

(** The page after the loop of the convert handler. *)
Lemma convert_fold_page (toMime toExt : string) (items : list SourceItem) (p : Page) :
  fold_left (step toMime toExt) items p =
    set_convertedResults
      (convertedResults p ++
       omap (fun item : SourceItem =>
               (fun b => mkResult b (changeExtension (originalName item) toExt))
                 <$> convert (blob item) toMime) items)
      (set_outputContainer
         (outputContainer p ++
          ((fun item : SourceItem =>
              match convert (blob item) toMime with
              | Some b => ImageResult (createObjectURL b)
                            (changeExtension (originalName item) toExt)
              | None => ErrorResult (originalName item +:+ " の変換に失敗しました。")
              end) <$> items)) p).
Proof.
  revert p. induction items as [|item items IH]; intros p.
  - destruct p. unfold set_convertedResults, set_outputContainer. simpl.
    by rewrite !app_nil_r.
  - cbn [fold_left]. rewrite IH. unfold convertStep.
    rewrite fmap_cons. cbn [omap list_omap].
    destruct (convert (blob item) toMime) as [b|]; destruct p;
      unfold pushConverted, appendResult, appendErrorResult, set_convertedResults,
        set_outputContainer; simpl; by rewrite <- ?app_assoc.
Qed.

(** The page after the convert handler has run on a non-empty work list. *)
Lemma onConvertClick_page (p : Page) :
  originalFiles p ≠ [] →
  click p =
    mkPage (originalFiles p) (errorResults p) (resultsOf p) (fromFormat p) (toFormat p)
      (convertBtn_disabled p)
      (if 0 <? length (resultsOf p) then false else downloadAllBtn_disabled p)
      (nodesOf p).
Proof.
  intros Hne. unfold onConvertClick.
  destruct p as [o e c f t cb db oc]. simpl in Hne.
  destruct o as [|i l]; [done|].
  change (length (originalFiles (mkPage (i :: l) e c f t cb db oc)) =? 0) with false.
  cbv iota zeta. rewrite convert_fold_page.
  unfold set_downloadAllBtn_disabled, set_convertedResults, set_outputContainer.
  cbn [originalFiles errorResults convertedResults fromFormat toFormat convertBtn_disabled
       downloadAllBtn_disabled outputContainer app].
  by destruct (0 <? _).
Qed.

(** X15: a conversion leaves what the normalizer set up as it was (the
    accepted items, the messages, the selector, the convert button), and
    it never disables the download button: the button is enabled when at
    least one item converted and is left as it was when none did. *)
Theorem onConvertClick_keeps_normalizer_state (p : Page) :
  originalFiles p ≠ [] →
  originalFiles (click p) = originalFiles p ∧
  errorResults (click p) = errorResults p ∧
  fromFormat (click p) = fromFormat p ∧
  toFormat (click p) = toFormat p ∧
  convertBtn_disabled (click p) = convertBtn_disabled p ∧
  downloadAllBtn_disabled (click p)
    = (if bool_decide (convertedResults (click p) = []) then downloadAllBtn_disabled p
       else false).
Proof.
  intros Hne. rewrite (onConvertClick_page p Hne). simpl. split_and!; try done.
  by destruct (resultsOf p).
Qed.

(** X16: from conversion to download: every name under which the
    download handler writes a result of a run into the archive has the
    canonical extension of the target of that run, renamed or not; and the
    names that reach [getUniqueFilename] always have a dot. *)
Theorem archive_names_have_target_extension (p : Page) (zip : Zip) :
  originalFiles p ≠ [] →
  pack (convertedResults (click p)) = Some zip →
  Forall (fun r => hasChar "." (filename r) = true) (convertedResults (click p)) ∧
  Forall (fun n => getExtension n = ext (imageMimeMap (toFormat p))) zip.*1.
Proof.
  intros Hne Hpack.
  destruct (onConvertClick_run readAsDataURL width height loadImage toBlob createObjectURL
              p Hne) as (_ & Hc & _).
  cbv zeta in Hc.
  assert (hasChar "." (ext (imageMimeMap (toFormat p))) = false) as Hext
    by (by destruct (toFormat p)).
  assert (∀ r, r ∈ convertedResults (click p) →
               ∃ n, filename r = changeExtension n (ext (imageMimeMap (toFormat p))))
    as Hnames.
  { intros r Hr. rewrite Hc in Hr.
    apply list_elem_of_omap in Hr as (item & _ & Hres).
    apply fmap_Some in Hres as (b & _ & ->). by exists (originalName item). }
  split.
  - apply Forall_forall. intros r Hr. destruct (Hnames r Hr) as [n ->].
    apply changeExtension_hasChar.
  - unfold pack in Hpack. destruct (length (convertedResults (click p)) =? 0); [done|].
    destruct (packLoop (convertedResults (click p)) ∅ []) as [[used zip']|] eqn:Hloop; [|done].
    simpl in Hpack. injection Hpack as <-.
    apply Forall_forall. intros n Hn.
    destruct (packLoop_names _ _ _ _ _ _ Hloop Hn) as [Hnil|(r & used0 & Hr & Hget)].
    + simpl in Hnil. by apply elem_of_nil in Hnil.
    + destruct (Hnames r Hr) as [n0 Hn0].
      rewrite (getUniqueFilename_extension _ _ used0 (eq_trans (f_equal _ Hn0)
                 (changeExtension_hasChar _ _)) Hget).
      rewrite Hn0. by apply getExtension_changeExtension.
Qed.

End ConversionRun.

(** X15 in the sample browser, on one png item converted to jpeg. *)
Lemma onConvertClick_keeps_normalizer_state_witness :
  let p := set_originalFiles [Sample.item "a.png" [Byte.x01] "png"] Sample.page0 in
  let q := onConvertClick Sample.readAsDataURL Sample.width Sample.height
             Sample.loadImage Sample.toBlob Sample.createObjectURL p in
  originalFiles q = originalFiles p ∧
  errorResults q = errorResults p ∧
  fromFormat q = fromFormat p ∧
  toFormat q = toFormat p ∧
  convertBtn_disabled q = convertBtn_disabled p ∧
  downloadAllBtn_disabled q
    = (if bool_decide (convertedResults q = []) then downloadAllBtn_disabled p else false).
Proof.
  intros p q.
  apply (onConvertClick_keeps_normalizer_state Sample.readAsDataURL Sample.width
           Sample.height Sample.loadImage Sample.toBlob Sample.createObjectURL p).
  discriminate.
Defined.

(** X16 in the sample browser, on two items that both become [a.jpg]. *)
Lemma archive_names_have_target_extension_witness :
  let p := set_originalFiles
             [ Sample.item "a.png" [Byte.x01] "png";
               Sample.item "a.webp" [Byte.x02] "webp" ] Sample.page0 in
  let q := onConvertClick Sample.readAsDataURL Sample.width Sample.height
             Sample.loadImage Sample.toBlob Sample.createObjectURL p in
  Forall (fun r => hasChar "." (filename r) = true) (convertedResults q) ∧
  Forall (fun n => getExtension n = "jpg") ["a.jpg"; "a(1).jpg"].
Proof.
  intros p q.
  apply (archive_names_have_target_extension Sample.readAsDataURL Sample.width
           Sample.height Sample.loadImage Sample.toBlob Sample.createObjectURL p
           [ ("a.jpg", [Byte.x01]); ("a(1).jpg", [Byte.x02]) ]).
  - discriminate.
  - by vm_compute.
Defined.

(** * Further properties of a whole selection *)

(** The extension of a name never has a dot. *)
Lemma getExtension_no_dot (n : string) : hasChar "." (getExtension n) = false.
Proof.
  destruct (hasChar "." n) eqn:Hn.
  - destruct (last_sep_decompose _ _ Hn) as (base & x & -> & Hx).
    change (base +:+ String "." x) with (base +:+ "." +:+ x).
    by rewrite getExtension_base_ext.
  - by rewrite getExtension_nodot.
Qed.

(** X17: a name with a dot is put together again from what
    [changeExtension] keeps and what [getExtension] returns: changing the
    extension of the name to its own extension gives the name back. *)
Theorem changeExtension_getExtension_roundtrip (n : string) :
  hasChar "." n = true → changeExtension n (getExtension n) = n.
Proof.
  intros Hn. destruct (last_sep_decompose _ _ Hn) as (base & x & -> & Hx).
  change (base +:+ String "." x) with (base +:+ "." +:+ x).
  by rewrite getExtension_base_ext, changeExtension_base_ext.
Qed.

(** X17 on [a.b.png]. *)
Lemma changeExtension_getExtension_roundtrip_witness :
  changeExtension "a.b.png" (getExtension "a.b.png") = "a.b.png".
Proof. apply (changeExtension_getExtension_roundtrip "a.b.png"). reflexivity. Defined.

Lemma handleRegularFile_errors (file : File) (p : Page) :
  errorResults (handleRegularFile file p) = errorResults p ∨
  ∃ reason,
    reason ∈ [" は非対応の画像形式です。"; " のZIP処理中に問題がありました。";
              " は非対応の拡張子です。"; " の解凍に失敗しました。"] ∧
    errorResults (handleRegularFile file p) = errorResults p ++ [name file +:+ reason].
Proof.
  unfold handleRegularFile. destruct (isImageFileSupported file).
  - destruct (decide (type file = "image/png")); [by left|].
    destruct (decide (type file = "image/jpeg")); [by left|].
    destruct (decide (type file = "image/webp")); [by left|].
    right. eexists. split; [|done]. apply list_elem_of_here.
  - destruct (decide (toLowerCase (getExtension (name file)) = "zip")).
    + right. eexists. split; [|done]. apply list_elem_of_further, list_elem_of_here.
    + right. eexists. split; [|done].
      do 2 apply list_elem_of_further. apply list_elem_of_here.
Qed.

(** X18: every message of [errorResults] after a [change] event is the
    name of a selected file, or of an entry of a selected archive that
    opened, followed by one of four fixed texts. *)
Theorem diagnostics_name_a_file
    (loadAsync : list Byte.byte → option (list ZipEntry)) (files : list File) (p : Page) :
  Forall (fun msg =>
            ∃ n reason,
              msg = n +:+ reason ∧
              reason ∈ [" は非対応の画像形式です。"; " のZIP処理中に問題がありました。";
                        " は非対応の拡張子です。"; " の解凍に失敗しました。"] ∧
              (n ∈ name <$> files ∨
               ∃ file entries e,
                 file ∈ files ∧ loadAsync (content file) = Some entries ∧
                 e ∈ entries ∧ n = entryName e))
         (errorResults (onInputChange loadAsync files p)).
Proof.
  set (P := fun msg : string => ∃ n reason, msg = n +:+ reason ∧ _ ∧ _).
  assert (∀ fs q, (∀ f, f ∈ fs → f ∈ files) →
                  Forall P (errorResults q) →
                  Forall P (errorResults (fold_left (handleFile loadAsync) fs q))) as Hfold.
  { induction fs as [|f fs IH]; intros q Hsub Hq; [done|]. simpl.
    apply IH; [intros f' Hf'; apply Hsub; by apply list_elem_of_further|].
    assert (f ∈ files) as Hf by (apply Hsub; apply list_elem_of_here).
    assert (P (name f +:+ " の解凍に失敗しました。")) as Hfail.
    { exists (name f), " の解凍に失敗しました。". split_and!; [done| |].
      - do 3 apply list_elem_of_further. apply list_elem_of_here.
      - left. by apply list_elem_of_fmap_2. }
    unfold handleFile. destruct (isZipFile f).
    - unfold handleZipFile. destruct (loadAsync (content f)) as [entries|] eqn:Hopen.
      + destruct (zipEntriesLoop_delta entries)
          as (items & errs & threw & Hloop & _ & _ & Herrs & _).
        rewrite Hloop.
        assert (Forall P (errorResults (extendRun items errs q))) as Hext.
        { destruct q. page_simpl. apply Forall_app. split; [done|].
          eapply Forall_impl; [exact Herrs|]. intros msg (e & He & _ & ->).
          exists (entryName e), " は非対応の拡張子です。". split_and!; [done| |].
          - do 2 apply list_elem_of_further. apply list_elem_of_here.
          - right. by exists f, entries, e. }
        destruct threw; [|done].
        destruct (extendRun items errs q). page_simpl.
        apply Forall_app. split; [done|]. by apply Forall_singleton.
      + destruct q. page_simpl. apply Forall_app. split; [done|]. by apply Forall_singleton.
    - destruct (handleRegularFile_errors f q) as [->|(reason & Hreason & ->)]; [done|].
      apply Forall_app. split; [done|]. apply Forall_singleton.
      exists (name f), reason. split_and!; [done|done|]. left. by apply list_elem_of_fmap_2. }
  destruct files as [|file files].
  - destruct p. simpl. constructor.
  - destruct (normalize_delta loadAsync (file :: files)) as (items & errs & Hdelta & _).
    rewrite (onInputChange_fields loadAsync (file :: files) items errs) by done. simpl.
    specialize (Hfold (file :: files) (mkPage [] [] [] (fromFormat p) (toFormat p) true true [])
                  (fun f Hf => Hf) (Forall_nil_2 _)).
    rewrite Hdelta in Hfold. by page_simpl.
Qed.

(** X19: in a selection of loose files the accepted items are exactly the
    files whose declared type is one of [image/png], [image/jpeg],
    [image/webp], in selection order, each with the bytes, the type and
    the name of its file. *)
Theorem loose_items_are_the_typed_files
    (loadAsync : list Byte.byte → option (list ZipEntry)) (files : list File) (p : Page) :
  Forall (fun file => isZipFile file = false) files →
  (fun item => (blob item, originalName item))
    <$> originalFiles (onInputChange loadAsync files p)
  = (fun file => (fileBlob file, name file))
      <$> filter (fun file => type file ∈ ["image/png"; "image/jpeg"; "image/webp"]) files.
Proof.
  intros Hloose.
  assert (∀ fs q, Forall (fun file => isZipFile file = false) fs →
            (fun item => (blob item, originalName item))
              <$> originalFiles (fold_left (handleFile loadAsync) fs q)
            = ((fun item => (blob item, originalName item)) <$> originalFiles q) ++
              ((fun file => (fileBlob file, name file))
                 <$> filter (fun file => type file ∈ ["image/png"; "image/jpeg"; "image/webp"])
                       fs)) as Hfold.
  { induction fs as [|f fs IH]; intros q Hfs; [by rewrite app_nil_r|].
    apply Forall_cons in Hfs as [Hf Hfs]. simpl fold_left. rewrite (IH _ Hfs).
    unfold handleFile. rewrite Hf.
    destruct (decide (type f ∈ ["image/png"; "image/jpeg"; "image/webp"])) as [Hin|Hout].
    - rewrite filter_cons_True by done. rewrite fmap_cons.
      assert (∃ tag, handleRegularFile f q
                     = pushOriginal (mkItem (fileBlob f) (name f) tag) q) as [tag ->].
      { rewrite !elem_of_cons, elem_of_nil in Hin. destruct Hin as [H|[H|[H|[]]]].
        - eexists. by apply handleRegularFile_png.
        - eexists. by apply handleRegularFile_jpeg.
        - eexists. by apply handleRegularFile_webp. }
      destruct q. page_simpl. by rewrite fmap_app, <- app_assoc.
    - rewrite filter_cons_False by done.
      destruct (handleRegularFile_other f q) as (reason & _ & ->).
      + intros H. apply Hout. rewrite H. apply list_elem_of_here.
      + intros H. apply Hout. rewrite H. apply list_elem_of_further, list_elem_of_here.
      + intros H. apply Hout. rewrite H. do 2 apply list_elem_of_further.
        apply list_elem_of_here.
      + by destruct q. }
  destruct files as [|file files].
  - by destruct p.
  - destruct (normalize_delta loadAsync (file :: files)) as (items & errs & Hdelta & _).
    rewrite (onInputChange_fields loadAsync (file :: files) items errs) by done. simpl.
    specialize (Hfold (file :: files) (mkPage [] [] [] (fromFormat p) (toFormat p) true true [])
                  Hloose).
    rewrite Hdelta in Hfold. by page_simpl.
Qed.

(** X19 on a png, a text file and a jpeg. *)
Lemma loose_items_are_the_typed_files_witness :
  (fun item => (blob item, originalName item))
    <$> originalFiles (onInputChange Sample.loadAsync
                         [ mkFile "a.png" "image/png" [Byte.x01];
                           mkFile "notes.txt" "text/plain" [];
                           mkFile "b.jpg" "image/jpeg" [Byte.x02] ] Sample.page0)
  = (fun file => (fileBlob file, name file))
      <$> filter (fun file => type file ∈ ["image/png"; "image/jpeg"; "image/webp"])
            [ mkFile "a.png" "image/png" [Byte.x01];
              mkFile "notes.txt" "text/plain" [];
              mkFile "b.jpg" "image/jpeg" [Byte.x02] ].
Proof.
  apply (loose_items_are_the_typed_files Sample.loadAsync
           [ mkFile "a.png" "image/png" [Byte.x01];
             mkFile "notes.txt" "text/plain" [];
             mkFile "b.jpg" "image/jpeg" [Byte.x02] ] Sample.page0).
  repeat constructor.
Defined.

(** * An entry of an archive, when the loop reaches it *)








(** * Names without a dot in the collision loop *)




(** * The conversion engine *)

Section ConversionEngine.

Context {DataURL Image : Type}.
Variable readAsDataURL : Blob → option DataURL.
Variables width height : Image → N.
Variable loadImage : DataURL → option Image.
Variable toBlob : Canvas Image → string → option Blob.
Variable createObjectURL : Blob → string.

Local Abbreviation convert := (convertImageFile readAsDataURL width height loadImage toBlob).
Local Abbreviation step :=
  (convertStep readAsDataURL width height loadImage toBlob createObjectURL).


End ConversionEngine.



(** * Converting again *)

(** X14: converting again replaces the outcome of the run before and does
    not add to it: whatever object URLs the browser mints in the two runs,
    the second run leaves the same results, with the same names and
    blobs, the same accepted items, messages, selectors and buttons as the
    first, and the same nodes in the output container apart from their
    URLs. *)
Theorem onConvertClick_rerun {DataURL Image : Type}
    (readAsDataURL : Blob → option DataURL) (width height : Image → N)
    (loadImage : DataURL → option Image) (toBlob : Canvas Image → string → option Blob)
    (createObjectURL1 createObjectURL2 : Blob → string) (p : Page) :
  let q1 := onConvertClick readAsDataURL width height loadImage toBlob createObjectURL1 p in
  let q2 := onConvertClick readAsDataURL width height loadImage toBlob createObjectURL2 q1 in
  convertedResults q2 = convertedResults q1 ∧
  withoutUrl <$> outputContainer q2 = withoutUrl <$> outputContainer q1 ∧
  originalFiles q2 = originalFiles q1 ∧
  errorResults q2 = errorResults q1 ∧
  fromFormat q2 = fromFormat q1 ∧
  toFormat q2 = toFormat q1 ∧
  convertBtn_disabled q2 = convertBtn_disabled q1 ∧
  downloadAllBtn_disabled q2 = downloadAllBtn_disabled q1.
Proof.
  intros q1 q2.
  destruct (decide (originalFiles p = [])) as [Hnil|Hne].
  - assert (q1 = p) as Hq1 by (unfold q1, onConvertClick; by rewrite Hnil).
    assert (q2 = q1) as -> by (unfold q2, onConvertClick; by rewrite Hq1, Hnil).
    done.
  - assert (q1 = _) as Hq1
      by exact (onConvertClick_page readAsDataURL width height loadImage toBlob
                  createObjectURL1 p Hne).
    assert (originalFiles q1 ≠ []) as Hne1 by (by rewrite Hq1).
    unfold q2.
    rewrite (onConvertClick_page readAsDataURL width height loadImage toBlob
               createObjectURL2 q1 Hne1).
    rewrite Hq1.
    cbn [originalFiles errorResults convertedResults fromFormat toFormat
         convertBtn_disabled downloadAllBtn_disabled outputContainer].
    split_and!; try done.
    + rewrite <- !list_fmap_compose. apply list_fmap_ext. intros i item _. simpl.
      by destruct (convertImageFile _ _ _ _ _ _ _).
    + by destruct (0 <? _).
Qed.
